(** * Pinacle trusted-setup pipeline: a shallow embedding of [setup.sh]
      and of [derefAddresses] from [deploy.go].

    The shell script is embedded as a program in a small shell monad:
    a command transforms a world (file store, working directory, number of
    entropy draws so far), emits a list of observable events and either
    completes or exits with a status.  The external tools ([snarkjs],
    [circom], [uuidgen]) are oracles of the environment. *)

From Stdlib Require Import String Ascii List Bool Arith Lia.
Import ListNotations.
Open Scope string_scope.

Set Implicit Arguments.

(* ================================================================== *)
(** ** Shell string operations *)

Module ShStr.

Definition slash : ascii := "/"%char.
Definition dot : ascii := "."%char.
Definition dash : ascii := "-"%char.
Definition newline : ascii := ascii_of_nat 10.
Definition backslash : ascii := ascii_of_nat 92.

(** Occurrence of a character in a string. *)
Fixpoint mem_char (c : ascii) (s : string) : bool :=
  match s with
  | EmptyString => false
  | String a r => if Ascii.eqb a c then true else mem_char c r
  end.

(** [[ "$s" == *suf ]]: the glob [*suf] matches exactly the strings that
    end in [suf]. *)
Fixpoint ends_with (suf s : string) : bool :=
  if String.eqb s suf then true
  else match s with
       | EmptyString => false
       | String _ r => ends_with suf r
       end.

(** [[ "$s" =~ ^[0-9]+$ ]] *)
Definition is_digit (c : ascii) : bool :=
  let n := nat_of_ascii c in (Nat.leb 48 n && Nat.leb n 57)%bool.

Fixpoint all_digits (s : string) : bool :=
  match s with
  | EmptyString => true
  | String c r => is_digit c && all_digits r
  end.

Definition is_number (s : string) : bool :=
  match s with
  | EmptyString => false
  | _ => all_digits s
  end.

(** A word that a utility reads as options when no [--] precedes it. *)
Definition starts_with_dash (s : string) : bool :=
  match s with
  | String c _ => Ascii.eqb c dash
  | EmptyString => false
  end.

(** A path is absolute when it begins with a slash. *)
Definition is_absolute (p : string) : bool :=
  match p with
  | String c _ => Ascii.eqb c slash
  | EmptyString => false
  end.

(** The file a path names when it is looked up from directory [cwd]. *)
Definition resolve (cwd p : string) : string :=
  if is_absolute p then p else cwd ++ "/" ++ p.

(** The directories above a path: what precedes each of its slashes (the
    root aside). *)
Fixpoint ancestors_from (pre rest : string) : list string :=
  match rest with
  | EmptyString => []
  | String a r =>
      ((if Ascii.eqb a slash && negb (String.eqb pre EmptyString)
        then [pre] else [])
       ++ ancestors_from (pre ++ String a EmptyString) r)%list
  end.

Definition ancestors (p : string) : list string :=
  ancestors_from EmptyString p.

(** What [basename] prints for an operand that it takes as a path:
    trailing slashes are dropped, then everything up to and including the
    last slash.  When the utility takes its operand as a path is said by
    [basename_cmd] below. *)
Fixpoint strip_trailing_slashes (s : string) : string :=
  match s with
  | EmptyString => EmptyString
  | String c r =>
      match strip_trailing_slashes r with
      | EmptyString => if Ascii.eqb c slash then EmptyString
                       else String c EmptyString
      | r' => String c r'
      end
  end.

Fixpoint last_component (s : string) : string :=
  match s with
  | EmptyString => EmptyString
  | String c r =>
      if mem_char slash r then last_component r
      else if Ascii.eqb c slash then r
      else String c r
  end.

Definition basename (s : string) : string :=
  match s with
  | EmptyString => EmptyString
  | _ => match strip_trailing_slashes s with
         | EmptyString => "/"
         | t => last_component t
         end
  end.

(** [${s%%.*}]: the longest suffix matching [.*] is removed, that is
    everything from the first dot on. *)
Fixpoint strip_longest_dot_suffix (s : string) : string :=
  match s with
  | EmptyString => EmptyString
  | String c r => if Ascii.eqb c dot then EmptyString
                  else String c (strip_longest_dot_suffix r)
  end.

(** [tr -d '-'] *)
Fixpoint tr_d (c : ascii) (s : string) : string :=
  match s with
  | EmptyString => EmptyString
  | String a r => if Ascii.eqb a c then tr_d c r else String a (tr_d c r)
  end.

(** [head -cN] *)
Fixpoint head_c (n : nat) (s : string) : string :=
  match n, s with
  | S k, String a r => String a (head_c k r)
  | _, _ => EmptyString
  end.

(** [$(...)]: command substitution drops every trailing newline of the
    captured output. *)
Fixpoint strip_trailing_newlines (s : string) : string :=
  match s with
  | EmptyString => EmptyString
  | String c r =>
      match strip_trailing_newlines r with
      | EmptyString => if Ascii.eqb c newline then EmptyString
                       else String c EmptyString
      | r' => String c r'
      end
  end.

Definition is_hex (c : ascii) : bool :=
  let n := nat_of_ascii c in
  ((Nat.leb 48 n && Nat.leb n 57) || (Nat.leb 97 n && Nat.leb n 102)
   || (Nat.leb 65 n && Nat.leb n 70))%bool.

Fixpoint all_hex (s : string) : bool :=
  match s with
  | EmptyString => true
  | String c r => is_hex c && all_hex r
  end.

End ShStr.

Import ShStr.

(* ================================================================== *)
(** ** The shell monad *)

Module Sh.

(** The colours of the script's [echo -e] lines (BLUE is defined and not
    used). *)
Inductive Color : Type := Green | Blue | Red | Yellow.

(** What a run lets an observer see: a call of [echo -e] with the text
    it is given (the colour codes aside), an external tool (snarkjs or
    circom) run in a directory with its exit status, and a removal of
    files.  [echo -e] rewrites the backslash sequences of its operand: the
    line on the terminal is the text of the event when the text holds no
    backslash ([verbatim]). *)
Inductive Event : Type :=
| Echo (c : Color) (msg : string)
| Run (dir : string) (argv : list string) (status : nat)
| Rm (dir : string) (names : list string).

(** The artifact store: the regular files and the directories, by path. *)
Record FS : Type := mkFS { files : list string; dirs : list string }.

Record World : Type := mkWorld {
  fs : FS;
  cwd : string;
  dirstack : list string;   (* pushd / popd *)
  draws : nat               (* uuidgen calls made so far *)
}.

(** The environment of a run: the external tools as oracles.  A tool
    sees its working directory, its arguments and the store; it yields an
    exit status and a store.  [uuidgen k] is what the k-th call of
    uuidgen prints.  [on_path] answers [command -v].  [pipe_fails k] says
    whether the pipeline [uuidgen | tr -d '-' | head -c40] of the k-th
    call ends with a non-zero status under [pipefail]: uuidgen fails, or a
    writer is stopped by the pipe that [head] has closed. *)
Record Env : Type := mkEnv {
  tool : string -> list string -> FS -> nat * FS;
  uuidgen : nat -> string;
  on_path : string -> bool;
  pipe_fails : nat -> bool
}.

Inductive Status (A : Type) : Type :=
| Done (a : A)
| Exit (code : nat).
Arguments Exit {A} code.

Record Result (A : Type) : Type := mkResult {
  events : list Event;
  status : Status A;
  world : World
}.

Definition Sh (A : Type) : Type := World -> Result A.

Definition ret {A} (a : A) : Sh A :=
  fun w => mkResult [] (Done a) w.

(** A result after the events that came before it. *)
Definition prepend {A} (evs : list Event) (r : Result A) : Result A :=
  mkResult (evs ++ events r) (status r) (world r).

(** Sequencing under [set -e]: an exit ends the script. *)
Definition bind {A B} (m : Sh A) (k : A -> Sh B) : Sh B :=
  fun w =>
    let r := m w in
    match status r with
    | Done a => prepend (events r) (k a (world r))
    | Exit c => mkResult (events r) (Exit c) (world r)
    end.

Definition exit_status {A} (r : Result A) : nat :=
  match status r with
  | Done _ => 0
  | Exit c => c
  end.

End Sh.

Import Sh.

Notation "x <- c1 ;; c2" := (bind c1 (fun x => c2))
  (at level 61, c1 at next level, right associativity).
Notation "c1 ;; c2" := (bind c1 (fun _ => c2))
  (at level 61, right associativity).

(* ================================================================== *)
(** ** Primitive commands *)

Section Commands.

Variable E : Env.

(** [echo -e "${COLOR}msg${NC}"] *)
Definition echo (c : Color) (msg : string) : Sh unit :=
  fun w => mkResult [Echo c msg] (Done tt) w.

(** A text that [echo -e] prints as it is: it holds no backslash. *)
Definition verbatim (msg : string) : bool := negb (mem_char backslash msg).

Definition exit (code : nat) : Sh unit :=
  fun w => mkResult [] (Exit code) w.

Definition pwd : Sh string :=
  fun w => mkResult [] (Done (cwd w)) w.

Definition has_file (store : FS) (path : string) : bool :=
  existsb (String.eqb path) (files store).

Definition is_file (w : World) (p : string) : bool :=
  has_file (fs w) (resolve (cwd w) p).

(** [[ -f p ]] *)
Definition test_f (p : string) : Sh bool :=
  fun w => mkResult [] (Done (is_file w p)) w.

Definition is_dir (store : FS) (path : string) : bool :=
  existsb (String.eqb path) (dirs store).

(** A directory cannot be made where the path, or a directory above it,
    is a regular file. *)
Definition blocked (store : FS) (path : string) : bool :=
  existsb (has_file store) (path :: ancestors path).

(** [mkdir -p d]: the command fails when [d] or a directory above it is a
    regular file; nothing happens when [d] is a directory already;
    otherwise [d] is made, and the directories above it that are
    missing. *)
Definition mkdir_p (d : string) : Sh unit :=
  fun w =>
    let p := resolve (cwd w) d in
    if blocked (fs w) p then mkResult [] (Exit 1) w
    else if is_dir (fs w) p then mkResult [] (Done tt) w
    else mkResult [] (Done tt)
           (mkWorld (mkFS (files (fs w))
                          (filter (fun q => negb (is_dir (fs w) q))
                                  (p :: ancestors p) ++ dirs (fs w)))
                    (cwd w) (dirstack w) (draws w)).

(** [pushd d >/dev/null], in a directory that [mkdir -p] has made. *)
Definition pushd (d : string) : Sh unit :=
  fun w => mkResult [] (Done tt)
             (mkWorld (fs w) (resolve (cwd w) d) (cwd w :: dirstack w) (draws w)).

(** [popd >/dev/null] *)
Definition popd : Sh unit :=
  fun w =>
    match dirstack w with
    | d :: rest => mkResult [] (Done tt) (mkWorld (fs w) d rest (draws w))
    | [] => mkResult [] (Exit 1) w
    end.

(** An external tool as a simple command: under [set -e] a non-zero
    status ends the script with that status. *)
Definition run (argv : list string) : Sh unit :=
  fun w =>
    let '(st, store) := tool E (cwd w) argv (fs w) in
    let w' := mkWorld store (cwd w) (dirstack w) (draws w) in
    mkResult [Run (cwd w) argv st]
             (match st with 0 => Done tt | S _ => Exit st end) w'.

(** The world once the regular files that [names] name, looked up from
    the working directory, are out of the store. *)
Definition swept (names : list string) (w : World) : World :=
  let gone := map (resolve (cwd w)) names in
  let keep := filter (fun f => negb (existsb (String.eqb f) gone))
                     (files (fs w)) in
  mkWorld (mkFS keep (dirs (fs w))) (cwd w) (dirstack w) (draws w).

(** [rm -f names], with no [--] before the names.  A name that begins
    with a dash is read as options: the names of this script end in
    [.ptau], [.zkey] or [_0003], which no option of rm does, so rm refuses
    the command line, removes nothing and fails.  Otherwise the regular
    files named are removed, [-f] making a name that is not there no
    error; a name that is a directory is not removed and makes rm fail
    once it has gone through the other names. *)
Definition rm_f (names : list string) : Sh unit :=
  fun w =>
    if existsb starts_with_dash names then mkResult [] (Exit 1) w
    else
      mkResult [Rm (cwd w) names]
               (if existsb (is_dir (fs w)) (map (resolve (cwd w)) names)
                then Exit 1 else Done tt)
               (swept names w).

(** [$(basename "$f")] on line 107, with no [--] before the operand.  An
    operand that begins with a dash is read as options, and no option of
    basename ends in [.circom], as an accepted argument does: the utility
    fails, and under [set -e] the assignment ends the script. *)
Definition basename_cmd (f : string) : Sh string :=
  fun w =>
    if starts_with_dash f then mkResult [] (Exit 1) w
    else mkResult [] (Done (basename f)) w.

(** What [head] prints in [uuidgen | tr -d '-' | head -c40], and what
    [$(...)] makes of it. *)
Definition piped (uuid_output : string) : string :=
  head_c 40 (tr_d dash uuid_output).

Definition entropy_of (uuid_output : string) : string :=
  strip_trailing_newlines (head_c 40 (tr_d dash uuid_output)).

(** Lines 133, 137, 207, 211 and 216: one pipeline inside [$(...)]; its
    status is not that of the command it is an argument of. *)
Definition entropy : Sh string :=
  fun w => mkResult [] (Done (entropy_of (uuidgen E (draws w))))
             (mkWorld (fs w) (cwd w) (dirstack w) (S (draws w))).

(** Line 142: [$(uuidgen | tr -d '-' | head -c40 2>/dev/null || uuidgen |
    tr -d '-' | head -c40)].  When the first pipeline fails the second one
    runs too, and the substitution captures what both have printed. *)
Definition entropy_twice (first second : string) : string :=
  strip_trailing_newlines (piped first ++ piped second).

Definition entropy_or : Sh string :=
  fun w =>
    if pipe_fails E (draws w) then
      mkResult [] (Done (entropy_twice (uuidgen E (draws w))
                                       (uuidgen E (S (draws w)))))
               (mkWorld (fs w) (cwd w) (dirstack w) (S (S (draws w))))
    else
      mkResult [] (Done (entropy_of (uuidgen E (draws w))))
               (mkWorld (fs w) (cwd w) (dirstack w) (S (draws w))).

End Commands.

(* ================================================================== *)
(** ** The script *)

(** The script's variables once arguments are parsed and validated. *)
Record Config : Type := mkConfig {
  CIRCOM_FILE : string;
  POWER_OF_TAU : string;
  ROOT_DIR : string
}.

Definition CIRCOM_BASENAME (c : Config) : string := basename (CIRCOM_FILE c).
Definition CIRCOM_NAME (c : Config) : string :=
  strip_longest_dot_suffix (CIRCOM_BASENAME c).

Definition POWERS_DIR (c : Config) : string := ROOT_DIR c ++ "/powersOfTau".
Definition BUILD_DIR (c : Config) : string :=
  ROOT_DIR c ++ "/circuits/build/" ++ CIRCOM_NAME c.
Definition KEYS_DIR (c : Config) : string := BUILD_DIR c ++ "/keys".

Definition PTAU_FILE (c : Config) : string :=
  POWERS_DIR c ++ "/pot" ++ POWER_OF_TAU c ++ "_final.ptau".
Definition R1CS_FILE (c : Config) : string :=
  BUILD_DIR c ++ "/" ++ CIRCOM_NAME c ++ ".r1cs".
Definition FINAL_ZKEY (c : Config) : string :=
  KEYS_DIR c ++ "/" ++ CIRCOM_NAME c ++ "_final.zkey".
Definition VK_JSON (c : Config) : string :=
  KEYS_DIR c ++ "/verification_key.json".

(** The path that [[ -f "${CIRCOM_FILE}" ]] looks up, from the directory
    the script is started in, and the path that circom is given. *)
Definition validated_path (c : Config) : string :=
  resolve (ROOT_DIR c) (CIRCOM_FILE c).
Definition compiler_path (c : Config) : string :=
  ROOT_DIR c ++ "/" ++ CIRCOM_FILE c.

(** [pot${POWER_OF_TAU}<suffix>] and [${CIRCOM_NAME}<suffix>] *)
Definition pot (c : Config) (suffix : string) : string :=
  "pot" ++ POWER_OF_TAU c ++ suffix.
Definition named (c : Config) (suffix : string) : string :=
  CIRCOM_NAME c ++ suffix.

Definition beacon_hash : string :=
  "0102030405060708090a0b0c0d0e0f101112131415161718191a1b1c1d1e1f".

(** The files that each stage removes when it is done. *)
Definition phase1_intermediates (c : Config) : list string :=
  [ pot c "_0000.ptau"; pot c "_0001.ptau"; pot c "_0002.ptau";
    "challenge_0003"; "response_0003"; pot c "_0003.ptau";
    pot c "_beacon.ptau" ].

Definition phase2_intermediates (c : Config) : list string :=
  [ named c "_0000.zkey"; named c "_0001.zkey"; named c "_0002.zkey";
    "challenge_phase2_0003"; "response_phase2_0003"; named c "_0003.zkey" ].

(** The script's messages for a stage whose output is already there. *)
Definition phase1_reuse_notice (c : Config) : Event :=
  Echo Yellow ("Powers-of-tau for power " ++ POWER_OF_TAU c
               ++ " already exists. Reusing " ++ PTAU_FILE c ++ ".").
Definition compile_reuse_notice (c : Config) : Event :=
  Echo Yellow ("Circuit already compiled at " ++ R1CS_FILE c
               ++ ". Skipping compile.").
Definition phase2_reuse_notice (c : Config) : Event :=
  Echo Yellow ("Verification key already exists at " ++ VK_JSON c
               ++ ". Skipping Groth16 setup.").

Section Script.

Variable E : Env.

(** Lines 125-167: powers of tau. *)
Definition phase1_stage (c : Config) : Sh unit :=
  present <- test_f (PTAU_FILE c) ;;
  if negb present then
    echo Green ("Starting new powers-of-tau ceremony for power "
                ++ POWER_OF_TAU c ++ ".") ;;
    pushd (POWERS_DIR c) ;;
    run E ["snarkjs"; "powersoftau"; "new"; "bn128"; POWER_OF_TAU c;
           pot c "_0000.ptau"; "-v"] ;;
    echo Green "First contribution..." ;;
    e1 <- entropy E ;;
    run E ["snarkjs"; "powersoftau"; "contribute"; pot c "_0000.ptau";
           pot c "_0001.ptau"; "--name=First contribution"; "-v";
           "-e=" ++ e1] ;;
    echo Green "Second contribution..." ;;
    e2 <- entropy E ;;
    run E ["snarkjs"; "powersoftau"; "contribute"; pot c "_0001.ptau";
           pot c "_0002.ptau"; "--name=Second contribution"; "-v";
           "-e=" ++ e2] ;;
    echo Green "Third contribution (bellman challenge)..." ;;
    run E ["snarkjs"; "powersoftau"; "export"; "challenge";
           pot c "_0002.ptau"; "challenge_0003"] ;;
    e3 <- entropy_or E ;;
    run E ["snarkjs"; "powersoftau"; "challenge"; "contribute"; "bn128";
           "challenge_0003"; "response_0003"; "-e=" ++ e3] ;;
    run E ["snarkjs"; "powersoftau"; "import"; "response";
           pot c "_0002.ptau"; "response_0003"; pot c "_0003.ptau";
           "-n=Third contribution"] ;;
    echo Green "Verifying powers-of-tau..." ;;
    run E ["snarkjs"; "powersoftau"; "verify"; pot c "_0003.ptau"] ;;
    echo Green "Applying random beacon..." ;;
    run E ["snarkjs"; "powersoftau"; "beacon"; pot c "_0003.ptau";
           pot c "_beacon.ptau"; beacon_hash; "10"; "-n=Final Beacon"] ;;
    echo Green "Preparing phase 2..." ;;
    run E ["snarkjs"; "powersoftau"; "prepare"; "phase2";
           pot c "_beacon.ptau"; pot c "_final.ptau"; "-v"] ;;
    echo Green "Verifying final ptau..." ;;
    run E ["snarkjs"; "powersoftau"; "verify"; pot c "_final.ptau"] ;;
    echo Green "Cleaning intermediate ptau files..." ;;
    rm_f (phase1_intermediates c) ;;
    popd
  else
    fun w => mkResult [phase1_reuse_notice c] (Done tt) w.

(** Lines 172-187: compilation. *)
Definition compile_stage (c : Config) : Sh unit :=
  present <- test_f (R1CS_FILE c) ;;
  if negb present then
    echo Green "Compiling circuit with circom..." ;;
    pushd (BUILD_DIR c) ;;
    run E ["circom"; compiler_path c; "--r1cs"; "--wasm"; "--sym"] ;;
    echo Green "Circuit info:" ;;
    run E ["snarkjs"; "r1cs"; "info"; named c ".r1cs"] ;;
    echo Green "Printing constraints (for inspection / optional debugging)..." ;;
    run E ["snarkjs"; "r1cs"; "print"; named c ".r1cs"; named c ".sym"] ;;
    popd
  else
    fun w => mkResult [compile_reuse_notice c] (Done tt) w.

(** Lines 196-241: Groth16 setup and export of the verification key. *)
Definition groth16_stage (c : Config) : Sh unit :=
  present <- test_f (VK_JSON c) ;;
  if negb present then
    echo Green "Running Groth16 setup and generating proving/verification keys..." ;;
    pushd (KEYS_DIR c) ;;
    run E ["snarkjs"; "groth16"; "setup"; "../" ++ named c ".r1cs";
           PTAU_FILE c; named c "_0000.zkey"] ;;
    echo Green "First zkey contribution..." ;;
    e1 <- entropy E ;;
    run E ["snarkjs"; "zkey"; "contribute"; named c "_0000.zkey";
           named c "_0001.zkey"; "--name=First Contribution"; "-v";
           "-e=" ++ e1] ;;
    echo Green "Second zkey contribution..." ;;
    e2 <- entropy E ;;
    run E ["snarkjs"; "zkey"; "contribute"; named c "_0001.zkey";
           named c "_0002.zkey"; "--name=Second Contribution"; "-v";
           "-e=" ++ e2] ;;
    echo Green "Third zkey (bellman) contribution..." ;;
    run E ["snarkjs"; "zkey"; "export"; "bellman"; named c "_0002.zkey";
           "challenge_phase2_0003"] ;;
    e3 <- entropy E ;;
    run E ["snarkjs"; "zkey"; "bellman"; "contribute"; "bn128";
           "challenge_phase2_0003"; "response_phase2_0003"; "-e=" ++ e3] ;;
    run E ["snarkjs"; "zkey"; "import"; "bellman"; named c "_0002.zkey";
           "response_phase2_0003"; named c "_0003.zkey";
           "-n=Third Contribution"] ;;
    echo Green "Verifying latest zkey..." ;;
    run E ["snarkjs"; "zkey"; "verify"; "../" ++ named c ".r1cs";
           PTAU_FILE c; named c "_0003.zkey"] ;;
    echo Green "Applying random beacon to zkey..." ;;
    run E ["snarkjs"; "zkey"; "beacon"; named c "_0003.zkey";
           named c "_final.zkey"; beacon_hash; "10";
           "-n=Final Beacon phase2"] ;;
    echo Green "Verifying final zkey..." ;;
    run E ["snarkjs"; "zkey"; "verify"; "../" ++ named c ".r1cs";
           PTAU_FILE c; named c "_final.zkey"] ;;
    echo Green "Exporting verification key JSON..." ;;
    run E ["snarkjs"; "zkey"; "export"; "verificationkey";
           named c "_final.zkey"; "verification_key.json"] ;;
    echo Green "Cleaning intermediate zkey files..." ;;
    rm_f (phase2_intermediates c) ;;
    popd
  else
    fun w => mkResult [phase2_reuse_notice c] (Done tt) w.

(** Lines 45-61: the argument loop.  [inl opt] is the unknown option that
    ends the script, [inr (circom, power)] the two variables. *)
Fixpoint parse_args (args : list string) (circom power : string)
  : string + (string * string) :=
  match args with
  | [] => inr (circom, power)
  | a :: rest =>
      if String.eqb a "--circom" then
        match rest with
        | [] => inr (EmptyString, power)
        | v :: rest' => parse_args rest' v power
        end
      else if String.eqb a "--power" then
        match rest with
        | [] => inr (circom, EmptyString)
        | v :: rest' => parse_args rest' circom v
        end
      else inl a
  end.

Definition usage : Sh unit :=
  echo Red "Usage: ./setup.sh --circom PATH/TO/circuit.circom --power N" ;;
  echo Red "Example: ./setup.sh --circom circuits/Pinacle.circom --power 18" ;;
  echo Red "Options:" ;;
  echo Red "  --circom CIRCOM_FILE   Specify a .circom circuit file" ;;
  echo Red "  --power N              Powers-of-tau exponent (e.g. 17, 18, 19)" ;;
  exit 1.

Definition fail (msgs : list string) : Sh unit :=
  fold_right (fun m k => echo Red m ;; k) (exit 1) msgs.

(** Lines 67-81: what the script asks of the --circom argument. *)
Definition circom_accepted (w : World) (file : string) : bool :=
  negb (String.eqb file "") && is_file w file && ends_with ".circom" file.

Definition summary (c : Config) : Sh unit :=
  echo Green "============================================================" ;;
  echo Green ("Zero-knowledge setup completed for circuit: " ++ CIRCOM_NAME c) ;;
  echo Green "Artifacts:" ;;
  echo Green ("- R1CS:     " ++ R1CS_FILE c) ;;
  echo Green ("- WASM:     " ++ BUILD_DIR c ++ "/" ++ CIRCOM_NAME c ++ "_js/"
              ++ CIRCOM_NAME c ++ ".wasm") ;;
  echo Green ("- ZKey:     " ++ FINAL_ZKEY c) ;;
  echo Green ("- Verification key: " ++ VK_JSON c) ;;
  echo Green "You can now generate proofs and verify them with snarkjs," ;;
  echo Green "or wire this verification key into on-chain verifier contracts." ;;
  echo Green "============================================================".

(** Lines 106-252: the pipeline once the arguments are validated. *)
Definition pipeline (file power : string) : Sh unit :=
  basename_cmd file ;;
  root <- pwd ;;
  let c := mkConfig file power root in
  echo Green ("Using circuit: " ++ CIRCOM_FILE c) ;;
  echo Green ("Circuit name: " ++ CIRCOM_NAME c) ;;
  echo Green ("Powers-of-Tau directory: " ++ POWERS_DIR c) ;;
  echo Green ("Build directory: " ++ BUILD_DIR c) ;;
  mkdir_p (POWERS_DIR c) ;;
  phase1_stage c ;;
  mkdir_p (BUILD_DIR c) ;;
  compile_stage c ;;
  mkdir_p (KEYS_DIR c) ;;
  groth16_stage c ;;
  summary c.

(** The whole script, from its argument vector. *)
Definition main (argv : list string) : Sh unit :=
  match argv with
  | [] => usage
  | _ =>
    match parse_args argv "" "" with
    | inl opt => fail ["Unknown option: " ++ opt]
    | inr (file, power) =>
      if String.eqb file "" then
        fail ["Error: --circom flag is required."]
      else
        there <- test_f file ;;
        if negb there then
          fail ["Error: Circom file '" ++ file ++ "' does not exist."]
        else if negb (ends_with ".circom" file) then
          fail ["Error: Circom file must have .circom extension (e.g. Pinacle.circom)."]
        else if String.eqb power "" then
          fail ["Error: --power flag is required (e.g. 17, 18, 19...)."]
        else if negb (is_number power) then
          fail ["Error: Power of tau must be a valid integer."]
        else if negb (on_path E "circom") then
          echo Red "Error: 'circom' is not installed or not on PATH." ;;
          echo Yellow "Hint: see https://docs.circom.io/getting-started/installation/" ;;
          exit 1
        else if negb (on_path E "snarkjs") then
          echo Red "Error: 'snarkjs' is not installed or not on PATH." ;;
          echo Yellow "Hint: npm install -g snarkjs" ;;
          exit 1
        else pipeline file power
    end
  end.

End Script.


(* ================================================================== *)
(** ** Observations on a run *)

(** The external invocations of a run, in order, with their statuses. *)
Definition runs_of (evs : list Event) : list (list string * nat) :=
  flat_map (fun e => match e with
                     | Run _ argv st => [(argv, st)]
                     | _ => []
                     end) evs.

(** The removals of a run: the directory and the names given to [rm -f]. *)
Definition removals (evs : list Event) : list (string * list string) :=
  flat_map (fun e => match e with
                     | Rm d names => [(d, names)]
                     | _ => []
                     end) evs.

(** The directories in which the tools of a run were started. *)
Definition run_dirs (evs : list Event) : list string :=
  flat_map (fun e => match e with
                     | Run d _ _ => [d]
                     | _ => []
                     end) evs.

(** The files that the removals of a run delete. *)
Definition removed_paths (evs : list Event) : list string :=
  flat_map (fun r => map (resolve (fst r)) (snd r)) (removals evs).

(** An event that does not report a failed tool. *)
Definition quiet (e : Event) : Prop :=
  match e with
  | Run _ _ st => st = 0
  | _ => True
  end.

(** The fail-fast shape of a result: no tool has failed, or the run has
    exited with the status of a failed tool that is its last event. *)
Definition failfast {A} (r : Result A) : Prop :=
  match status r with
  | Done _ => Forall quiet (events r)
  | Exit c =>
      Forall quiet (events r)
      \/ exists pre d argv,
           events r = (pre ++ [Run d argv c])%list /\ c <> 0 /\ Forall quiet pre
  end.

(** The environment in which no tool ever fails. *)
Definition tools_succeed (E : Env) : Prop :=
  forall d argv store, fst (tool E d argv store) = 0.

(* ------------------------------------------------------------------ *)
(** *** The invocations of each stage when nothing fails *)

(** The entropy of the k-th draw after world [w]. *)
Definition token (E : Env) (w : World) (k : nat) : string :=
  entropy_of (uuidgen E (k + draws w)).

(** The entropy of line 142, drawn as the k-th after world [w]: that of
    the two pipelines when the first one fails. *)
Definition token_or (E : Env) (w : World) (k : nat) : string :=
  if pipe_fails E (k + draws w)
  then entropy_twice (uuidgen E (k + draws w)) (uuidgen E (S (k + draws w)))
  else token E w k.

(** The calls of uuidgen that phase 1 makes when it gets past line 142. *)
Definition phase1_draws (E : Env) (w : World) : nat :=
  if pipe_fails E (2 + draws w) then 4 else 3.

Definition phase1_commands (E : Env) (c : Config) (w : World)
  : list (list string) :=
  [ ["snarkjs"; "powersoftau"; "new"; "bn128"; POWER_OF_TAU c;
     pot c "_0000.ptau"; "-v"];
    ["snarkjs"; "powersoftau"; "contribute"; pot c "_0000.ptau";
     pot c "_0001.ptau"; "--name=First contribution"; "-v";
     "-e=" ++ token E w 0];
    ["snarkjs"; "powersoftau"; "contribute"; pot c "_0001.ptau";
     pot c "_0002.ptau"; "--name=Second contribution"; "-v";
     "-e=" ++ token E w 1];
    ["snarkjs"; "powersoftau"; "export"; "challenge";
     pot c "_0002.ptau"; "challenge_0003"];
    ["snarkjs"; "powersoftau"; "challenge"; "contribute"; "bn128";
     "challenge_0003"; "response_0003"; "-e=" ++ token_or E w 2];
    ["snarkjs"; "powersoftau"; "import"; "response";
     pot c "_0002.ptau"; "response_0003"; pot c "_0003.ptau";
     "-n=Third contribution"];
    ["snarkjs"; "powersoftau"; "verify"; pot c "_0003.ptau"];
    ["snarkjs"; "powersoftau"; "beacon"; pot c "_0003.ptau";
     pot c "_beacon.ptau"; beacon_hash; "10"; "-n=Final Beacon"];
    ["snarkjs"; "powersoftau"; "prepare"; "phase2";
     pot c "_beacon.ptau"; pot c "_final.ptau"; "-v"];
    ["snarkjs"; "powersoftau"; "verify"; pot c "_final.ptau"] ].

Definition phase2_commands (E : Env) (c : Config) (w : World)
  : list (list string) :=
  [ ["snarkjs"; "groth16"; "setup"; "../" ++ named c ".r1cs";
     PTAU_FILE c; named c "_0000.zkey"];
    ["snarkjs"; "zkey"; "contribute"; named c "_0000.zkey";
     named c "_0001.zkey"; "--name=First Contribution"; "-v";
     "-e=" ++ token E w 0];
    ["snarkjs"; "zkey"; "contribute"; named c "_0001.zkey";
     named c "_0002.zkey"; "--name=Second Contribution"; "-v";
     "-e=" ++ token E w 1];
    ["snarkjs"; "zkey"; "export"; "bellman"; named c "_0002.zkey";
     "challenge_phase2_0003"];
    ["snarkjs"; "zkey"; "bellman"; "contribute"; "bn128";
     "challenge_phase2_0003"; "response_phase2_0003";
     "-e=" ++ token E w 2];
    ["snarkjs"; "zkey"; "import"; "bellman"; named c "_0002.zkey";
     "response_phase2_0003"; named c "_0003.zkey";
     "-n=Third Contribution"];
    ["snarkjs"; "zkey"; "verify"; "../" ++ named c ".r1cs";
     PTAU_FILE c; named c "_0003.zkey"];
    ["snarkjs"; "zkey"; "beacon"; named c "_0003.zkey";
     named c "_final.zkey"; beacon_hash; "10"; "-n=Final Beacon phase2"];
    ["snarkjs"; "zkey"; "verify"; "../" ++ named c ".r1cs";
     PTAU_FILE c; named c "_final.zkey"];
    ["snarkjs"; "zkey"; "export"; "verificationkey";
     named c "_final.zkey"; "verification_key.json"] ].

(** The verification of each stage's last parameter file. *)
Definition phase1_final_verify (c : Config) : list string :=
  ["snarkjs"; "powersoftau"; "verify"; pot c "_final.ptau"].

Definition phase2_final_verify (c : Config) : list string :=
  ["snarkjs"; "zkey"; "verify"; "../" ++ named c ".r1cs";
   PTAU_FILE c; named c "_final.zkey"].

Definition phase2_export (c : Config) : list string :=
  ["snarkjs"; "zkey"; "export"; "verificationkey";
   named c "_final.zkey"; "verification_key.json"].

(* ------------------------------------------------------------------ *)
(** *** Contribution records *)

(** What a step of a chain reads and what it writes, as snarkjs takes its
    positional arguments. *)
Record ContributionRecord : Type := mkStep {
  inputs : list string;
  output : option string
}.

Definition step_of (argv : list string) : option ContributionRecord :=
  match argv with
  | _ :: family :: op :: args =>
      if (String.eqb op "new") then
        match args with
        | _ :: _ :: o :: _ => Some (mkStep [] (Some o))
        | _ => None
        end
      else if (String.eqb op "setup") then
        match args with
        | r :: p :: o :: _ => Some (mkStep [r; p] (Some o))
        | _ => None
        end
      else if (String.eqb op "contribute") || (String.eqb op "beacon") then
        match args with
        | i :: o :: _ => Some (mkStep [i] (Some o))
        | _ => None
        end
      else if (String.eqb op "export") || (String.eqb op "prepare") then
        match args with
        | _ :: i :: o :: _ => Some (mkStep [i] (Some o))
        | _ => None
        end
      else if (String.eqb op "challenge") || (String.eqb op "bellman") then
        match args with
        | _ :: _ :: i :: o :: _ => Some (mkStep [i] (Some o))
        | _ => None
        end
      else if (String.eqb op "import") then
        match args with
        | _ :: old :: resp :: o :: _ => Some (mkStep [old; resp] (Some o))
        | _ => None
        end
      else if (String.eqb op "verify") then
        if String.eqb family "powersoftau" then
          match args with
          | f :: _ => Some (mkStep [f] None)
          | _ => None
          end
        else
          match args with
          | r :: p :: z :: _ => Some (mkStep [r; p; z] None)
          | _ => None
          end
      else None
  | _ => None
  end.

(** A chain is linked when every step reads the file that the step before
    it wrote; a step that writes nothing (a verification) passes the file
    on to the next step. *)
Fixpoint linked (latest : option string) (steps : list (option ContributionRecord))
  : Prop :=
  match steps with
  | [] => True
  | None :: _ => False
  | Some s :: rest =>
      match latest with
      | None => True
      | Some f => In f (inputs s)
      end
      /\ linked (match output s with
                 | Some o => Some o
                 | None => latest
                 end) rest
  end.

(* ------------------------------------------------------------------ *)
(** *** The output of uuidgen *)

(** A line of [uuidgen]: hexadecimal digits ([true]) and dashes ([false])
    as the pattern says, then a newline. *)
Fixpoint is_line_of (pat : list bool) (s : string) : bool :=
  match pat, s with
  | [], String c EmptyString => Ascii.eqb c newline
  | true :: p, String c r => is_hex c && is_line_of p r
  | false :: p, String c r => Ascii.eqb c dash && is_line_of p r
  | _, _ => false
  end.

Definition uuid_pattern : list bool :=
  (repeat true 8 ++ [false] ++ repeat true 4 ++ [false] ++ repeat true 4
  ++ [false] ++ repeat true 4 ++ [false] ++ repeat true 12)%list.

Definition is_uuid_output (s : string) : bool := is_line_of uuid_pattern s.

(* ------------------------------------------------------------------ *)
(** *** Sample environments *)

(** A tool that always succeeds and writes nothing, and one that fails the
    invocation whose arguments are [bad]. *)
Definition tool_ok : string -> list string -> FS -> nat * FS :=
  fun _ _ store => (0, store).

Definition tool_failing (bad : list string)
  : string -> list string -> FS -> nat * FS :=
  fun _ argv store =>
    if list_eq_dec string_dec argv bad then (1, store) else (0, store).

Definition sample_uuid : string :=
  "123e4567-e89b-42d3-a456-426614174000" ++ String newline "".

Definition env_ok : Env :=
  mkEnv tool_ok (fun _ => sample_uuid) (fun _ => true) (fun _ => false).

Definition env_failing (bad : list string) : Env :=
  mkEnv (tool_failing bad) (fun _ => sample_uuid) (fun _ => true)
        (fun _ => false).

Definition world0 (root : string) (present : list string) : World :=
  mkWorld (mkFS present []) root [] 0.

Definition pinacle : Config := mkConfig "circuits/Pinacle.circom" "12" "/w".

(* ================================================================== *)
(** ** deploy.go: derefAddresses *)

Module Deploy.
Section DerefAddresses.

(** [common.Address]; a [*common.Address] is nil or points to one. *)
Variable Address : Type.

(** The loop of [derefAddresses]: the slice grows by [append] at each
    pointer that is not nil. *)
Definition derefAddresses (ptrs : list (option Address)) : list Address :=
  fold_left (fun addrs ptr =>
               match ptr with
               | Some a => (addrs ++ [a])%list
               | None => addrs
               end) ptrs [].

(** The values of the entries that are not nil, in the order of the
    slice. *)
Fixpoint non_nil_values (ptrs : list (option Address)) : list Address :=
  match ptrs with
  | [] => []
  | Some a :: rest => a :: non_nil_values rest
  | None :: rest => non_nil_values rest
  end.

End DerefAddresses.
End Deploy.

(* ================================================================== *)
(** ** The outcomes of a stage that runs *)

Definition ok_runs (cmds : list (list string)) : list (list string * nat) :=
  map (fun argv => (argv, 0)) cmds.

(** A stage that runs the commands [cmds] in directory [dir] and then
    removes [junk] either completes, every command having succeeded, or is
    ended by the first command that fails, before anything is removed, or
    is ended by [rm] once every command has succeeded: [rm] has refused
    names that begin with a dash and removed nothing, or it has removed
    the files and failed on a name that is a directory. *)
Inductive StageOutcome (E : Env) (cmds : list (list string)) (dir : string)
          (junk : list string) (r : Result unit) : Prop :=
| Completed :
    existsb starts_with_dash junk = false ->
    status r = Done tt ->
    runs_of (events r) = ok_runs cmds ->
    removals (events r) = [(dir, junk)] ->
    (forall name, In name junk ->
                  has_file (fs (world r)) (resolve dir name) = false) ->
    StageOutcome E cmds dir junk r
| Aborted (k : nat) (argv : list string) (n : nat) (store : FS) :
    nth_error cmds k = Some argv ->
    fst (tool E dir argv store) = S n ->
    status r = Exit (S n) ->
    runs_of (events r) = (ok_runs (firstn k cmds) ++ [(argv, S n)])%list ->
    removals (events r) = [] ->
    StageOutcome E cmds dir junk r
| Refused :
    existsb starts_with_dash junk = true ->
    status r = Exit 1 ->
    runs_of (events r) = ok_runs cmds ->
    removals (events r) = [] ->
    StageOutcome E cmds dir junk r
| Held (store : FS) :
    existsb starts_with_dash junk = false ->
    existsb (is_dir store) (map (resolve dir) junk) = true ->
    status r = Exit 1 ->
    runs_of (events r) = ok_runs cmds ->
    removals (events r) = [(dir, junk)] ->
    (forall name, In name junk ->
                  has_file (fs (world r)) (resolve dir name) = false) ->
    StageOutcome E cmds dir junk r.

(* ------------------------------------------------------------------ *)
(** *** A tool that writes its output *)

Fixpoint argv_eqb (a b : list string) : bool :=
  match a, b with
  | [], [] => true
  | x :: a', y :: b' => String.eqb x y && argv_eqb a' b'
  | _, _ => false
  end.

(** A tool that fails the invocation [bad] and otherwise succeeds and
    leaves the file that the invocation names as its output. *)
Definition tool_writing (bad : list string)
  : string -> list string -> FS -> nat * FS :=
  fun d argv store =>
    if argv_eqb argv bad then (1, store)
    else match step_of argv with
         | Some (mkStep _ (Some o)) =>
             (0, mkFS (resolve d o :: files store) (dirs store))
         | _ => (0, store)
         end.

Definition env_writing (bad : list string) : Env :=
  mkEnv (tool_writing bad) (fun _ => sample_uuid) (fun _ => true)
        (fun _ => false).

(* ================================================================== *)
(** ** Further observations *)

(** *** Argument vectors *)

(** The two options of the script, and an argument vector made of options
    that each have their value. *)
Inductive Flag : Type := FCircom | FPower.

Definition flag_text (f : Flag) : string :=
  match f with
  | FCircom => "--circom"
  | FPower => "--power"
  end.

Definition render (ps : list (Flag * string)) : list string :=
  flat_map (fun p => [flag_text (fst p); snd p]) ps.

(** The value an option ends with: that of its last occurrence. *)
Fixpoint last_value (f : Flag) (ps : list (Flag * string)) (default : string)
  : string :=
  match ps with
  | [] => default
  | (g, v) :: rest =>
      last_value f rest
        (match f, g with
         | FCircom, FCircom | FPower, FPower => v
         | _, _ => default
         end)
  end.

(** *** The compile stage *)

Definition compile_commands (c : Config) : list (list string) :=
  [ ["circom"; compiler_path c; "--r1cs"; "--wasm"; "--sym"];
    ["snarkjs"; "r1cs"; "info"; named c ".r1cs"];
    ["snarkjs"; "r1cs"; "print"; named c ".r1cs"; named c ".sym"] ].

(* ================================================================== *)
(** ** deploy.go: main *)

From Stdlib Require Import NArith.

(** The packages under [deployer/internal], the contract bindings and
    go-ethereum are not among the sources: what [main] calls in them is an
    oracle of the node it runs against, and every call that acts on the
    file system, on the chain or on the log is an event of the run.
    [logger.Logger] is a zerolog logger: [Fatal] writes its message and ends
    the process, without running the deferred calls. *)
Module Deployer.
Section Main.

(** [common.Address], [*types.Transaction], the decrypted key and the RPC
    client. *)
Variables Address Tx Key Client : Type.

Record Cfg : Type := mkCfg {
  LoggerMode : string;
  DisableBanner : bool;
  Version : string;
  AccountsDir : string;
  AccountsNumber : nat;
  GethNodeKeystore : string;
  GethNodePassword : string;
  GethNodeUrl : string;
  AddressesDir : string
}.

(** The fields of [bind.TransactOpts] that [main] sets. *)
Record TransactOpts : Type := mkOpts {
  GasLimit : N;
  GasTipCap : N;
  GasFeeCap : N
}.

Record Receipt : Type := mkReceipt { Status : N; GasUsed : N }.

(** What [directory.DeleteDir] returns: nil, an error that is
    [os.ErrNotExist], or another error. *)
Inductive DeleteResult : Type := Deleted | NotExist | DeleteFailed.

(** The collaborators of [main].  [None] and [false] stand for a non-nil
    error. *)
Record Node : Type := mkNode {
  num_cpu : nat;
  go_version : string;
  goos : string;
  goarch : string;
  load_config : option Cfg;
  delete_dir : string -> DeleteResult;
  create_dir : string -> bool;
  new_mimc_sponge : bool;
  path_join : string -> string -> string;
  find_private_key : string -> option string;
  decrypt_keyfile : string -> string -> option Key;
  new_eth_client : string -> option (Client * N);
  new_transactor : Key -> N -> bool;
  deploy_mimc : TransactOpts -> option (Address * Tx);
  deploy_verifier : TransactOpts -> option (Address * Tx);
  deploy_zklogin :
    TransactOpts -> N -> list N -> list N -> Address -> Address ->
    list Address -> option (Address * Tx);
  wait_mined : Tx -> option Receipt;
  code_at : Address -> option nat;      (* the length of the code *)
  extract_addresses : list (option Address);
  tx_hash : Tx -> string;
  hex : Address -> string
}.

Inductive Field : Type :=
| FStr (key value : string)
| FInt (key : string) (n : nat)
| FUint64 (key : string) (n : N)
| FErr.

Inductive Ev : Type :=
| GoMaxProcs (n : nat)
| Info (fields : list Field) (msg : string)
| Fatal (fields : list Field) (msg : string)
| SetupLogger (mode : string)
| PrintBanner (version : string)
| DeleteDir (path : string)
| CreateDir (path : string)
| CreateAccounts (name : string) (n : nat)
| SaveAccounts (path : string)
| Dial (url : string)
| DeployMimc (opts : TransactOpts)
| DeployVerifier (opts : TransactOpts)
| DeployZklogin (opts : TransactOpts) (levels : N) (a b : list N)
                (mimc verifier : Address) (foodbanks : list Address)
| AddContract (name : string) (a : Address)
| SaveAddresses (path : string)
| ClientClose
| CtxCancel.

(** A run: its events, and its value unless [Fatal] has ended it. *)
Definition M (A : Type) : Type := (list Ev * option A)%type.

Definition ret {A} (a : A) : M A := ([], Some a).

Definition bind {A B} (m : M A) (k : A -> M B) : M B :=
  match m with
  | (evs, Some a) => let '(evs', r) := k a in ((evs ++ evs')%list, r)
  | (evs, None) => (evs, None)
  end.

Definition emit (e : Ev) : M unit := ([e], Some tt).

Definition fatal {A} (fields : list Field) (msg : string) : M A :=
  ([Fatal (FErr :: fields) msg], None).

(** [v, err := f(); if err != nil { Fatal }] *)
Definition attempt {A} (e : Ev) (o : option A) (fields : list Field)
           (msg : string) : M A :=
  match o with
  | Some a => ([e], Some a)
  | None => ([e; Fatal (FErr :: fields) msg], None)
  end.

(** The same for a call that leaves no event. *)
Definition check {A} (o : option A) (fields : list Field) (msg : string)
  : M A :=
  match o with
  | Some a => ret a
  | None => fatal fields msg
  end.

Definition ok (b : bool) : option unit := if b then Some tt else None.

Definition when (b : bool) (m : M unit) : M unit := if b then m else ret tt.

Definition trOpts : TransactOpts :=
  mkOpts 11000000%N 1000000000%N 2000000000%N.

Variable node : Node.

(** Lines 243-251, as in [Deploy]. *)
Definition derefAddresses := @Deploy.derefAddresses Address.

Local Notation "x <~ c1 ;;; c2" := (bind c1 (fun x => c2))
  (at level 61, c1 at next level, right associativity).
Local Notation "c1 ;;; c2" := (bind c1 (fun _ => c2))
  (at level 61, right associativity).

(** One contract: deployed, mined, its code read, its address recorded
    (lines 139-160, 162-183 and 197-234). *)
Definition deployed (name label code_label : string) (e : Ev)
           (r : option (Address * Tx)) (receipt_log : Tx -> Receipt -> M unit)
           (code_key : string) : M Address :=
  d <~ attempt e r [FStr "contract" label] "Failed to deploy contract" ;;;
  rc <~ check (wait_mined node (snd d)) [FStr "contract" label]
              "Failed to mine tx" ;;;
  receipt_log (snd d) rc ;;;
  emit (Info [FStr "address" (hex node (fst d))] label) ;;;
  n <~ check (code_at node (fst d)) []
             ("Failed to read contract code for " ++ code_label) ;;;
  emit (Info [FInt code_key n] ("Code size at " ++ code_label ++ " address")) ;;;
  emit (AddContract name (fst d)) ;;;
  ret (fst d).

(** Lines 44-241. *)
Definition main : M unit :=
  emit (GoMaxProcs (num_cpu node)) ;;;
  emit (Info [FInt "%d" (num_cpu node)] "Setting GOMAXPROCS to %d") ;;;
  emit (Info [FInt "%d" (num_cpu node)] "Starting Rollup Server on %d CPU(s)") ;;;
  emit (Info [FStr "%s" (go_version node)] "Go Version: %s") ;;;
  emit (Info [FStr "%s" (goos node)] "OS: %s") ;;;
  emit (Info [FStr "%s" (goarch node)] "Architecture: %s") ;;;
  cfg <~ check (load_config node) [] "Failed to load Config" ;;;
  when (String.eqb (LoggerMode cfg) "production")
       (emit (SetupLogger "production") ;;;
        emit (Info [] "Production logger initialized")) ;;;
  emit (Info [] "Configuration loaded successfully") ;;;
  when (negb (DisableBanner cfg)) (emit (PrintBanner (Version cfg))) ;;;
  emit (DeleteDir (AccountsDir cfg)) ;;;
  match delete_dir node (AccountsDir cfg) with
  | DeleteFailed => fatal [] "Failed to delete directory"
  | Deleted | NotExist =>
    attempt (CreateDir (AccountsDir cfg)) (ok (create_dir node (AccountsDir cfg)))
        [] "Failed to create directory" ;;;
    check (ok (new_mimc_sponge node)) [] "Failed to initialize MiMC Sponge" ;;;
    emit (CreateAccounts "foodBanks" (AccountsNumber cfg)) ;;;
    emit (SaveAccounts (path_join node (AccountsDir cfg) "foodBanks.json")) ;;;
    keyfile <~ check (find_private_key node (GethNodeKeystore cfg)) []
                     "Failed to find private key in keystore" ;;;
    key <~ check (decrypt_keyfile node keyfile (GethNodePassword cfg)) []
                 "Failed to decrypt private key in keystore" ;;;
    client <~ attempt (Dial (GethNodeUrl cfg))
                  (new_eth_client node (GethNodeUrl cfg)) []
                  "Failed to connect to Ethereum node" ;;;
    check (ok (new_transactor node key (snd client))) []
          "Failed to create a new transactor" ;;;
    mimcAddress <~
      deployed "mimc" "Mimc" "Mimc" (DeployMimc trOpts) (deploy_mimc node trOpts)
               (fun _ _ => ret tt) "MimcCodeBytes" ;;;
    verifierAddress <~
      deployed "verifier" "Verifier" "Verifier" (DeployVerifier trOpts)
               (deploy_verifier node trOpts)
               (fun _ _ => ret tt) "VerifierCodeBytes" ;;;
    let rawFB := extract_addresses node in
    emit (Info [FInt "foodbankAddressCount" (length rawFB)]
               "Extracted foodbank addresses (including nil)") ;;;
    let fb := derefAddresses rawFB in
    emit (Info [FInt "foodbankNonNilCount" (length fb)]
               "Foodbank addresses (non-nil) used for zkLogin") ;;;
    deployed "zklogin" "ZkLogin" "zkLogin"
             (DeployZklogin trOpts 2%N [1%N; 1%N] [32%N; 32%N]
                            mimcAddress verifierAddress fb)
             (deploy_zklogin node trOpts 2%N [1%N; 1%N] [32%N; 32%N]
                             mimcAddress verifierAddress fb)
             (fun tx rc =>
                emit (Info [FStr "contract" "ZkLogin";
                            FStr "txHash" (tx_hash node tx);
                            FUint64 "status" (Status rc);
                            FUint64 "gasUsed" (GasUsed rc)]
                           "ZkLogin deployment receipt"))
             "ZkLoginCodeBytes" ;;;
    emit (SaveAddresses (path_join node (AddressesDir cfg) "addresses.json")) ;;;
    emit (Info [] "Deployer finished successfully") ;;;
    (* the deferred calls, last deferred first *)
    emit ClientClose ;;;
    emit CtxCancel
  end.

(** The calls of a run that act on the chain or record an address. *)
Definition on_chain (e : Ev) : bool :=
  match e with
  | DeployMimc _ | DeployVerifier _ | DeployZklogin _ _ _ _ _ _ _
  | AddContract _ _ | SaveAddresses _ => true
  | _ => false
  end.

Definition is_fatal (e : Ev) : bool :=
  match e with
  | Fatal _ _ => true
  | _ => false
  end.

Definition is_save (e : Ev) : bool :=
  match e with
  | SaveAddresses _ => true
  | _ => false
  end.

Definition is_create (e : Ev) : bool :=
  match e with
  | CreateDir _ => true
  | _ => false
  end.

Definition is_deferred (e : Ev) : bool :=
  match e with
  | ClientClose | CtxCancel => true
  | _ => false
  end.

(** The node whose receipts are rewritten by [f]. *)
Definition with_receipts (f : Receipt -> Receipt) (n : Node) : Node :=
  mkNode (num_cpu n) (go_version n) (goos n) (goarch n) (load_config n)
         (delete_dir n) (create_dir n) (new_mimc_sponge n) (path_join n)
         (find_private_key n) (decrypt_keyfile n) (new_eth_client n)
         (new_transactor n) (deploy_mimc n) (deploy_verifier n)
         (deploy_zklogin n)
         (fun tx => option_map f (wait_mined n tx))
         (code_at n) (extract_addresses n) (tx_hash n) (hex n).

End Main.

(** A node on which every call succeeds: the accounts directory does not
    exist yet, and the receipts have status 0. *)
Definition sample_cfg : Cfg :=
  mkCfg "development" true "v0.1.0" "accounts" 2 "keystore" "secret"
        "http://localhost:8545" "addresses".

Definition sample_node : Node nat nat unit unit :=
  mkNode 4 "go1.22" "linux" "amd64" (Some sample_cfg)
         (fun _ => NotExist) (fun _ => true) true
         (fun a b => a ++ "/" ++ b)
         (fun _ => Some "keyfile") (fun _ _ => Some tt)
         (fun _ => Some (tt, 1337%N)) (fun _ _ => true)
         (fun _ => Some (1, 101)) (fun _ => Some (2, 102))
         (fun _ _ _ _ _ _ _ => Some (3, 103))
         (fun _ => Some (mkReceipt 0 7946307))
         (fun _ => Some 0)
         [Some 10; None; Some 11]
         (fun _ => "0xhash") (fun _ => "0xaddr").

End Deployer.

(* ================================================================== *)
(** ** Facts about strings *)

Section StringFacts.

Lemma append_assoc (a b c : string) : (a ++ b) ++ c = a ++ (b ++ c).
Proof.
  induction a as [|x a IH]; simpl; [reflexivity | now rewrite IH].
Qed.

Lemma length_append (a b : string) :
  String.length (a ++ b) = String.length a + String.length b.
Proof.
  induction a as [|x a IH]; simpl; [reflexivity | now rewrite IH].
Qed.

Lemma append_inv_head (a b c : string) : a ++ b = a ++ c -> b = c.
Proof.
  induction a as [|x a IH]; simpl; intros H; [exact H|].
  injection H as H. auto.
Qed.

(** Two strings that are equal have the same suffix of a given length. *)
Lemma append_inv_tail_length (a b s t : string) :
  a ++ s = b ++ t -> String.length s = String.length t -> a = b /\ s = t.
Proof.
  revert b. induction a as [|x a IH]; intros [|y b] H L; simpl in *.
  - auto.
  - exfalso. apply (f_equal String.length) in H. simpl in H.
    rewrite length_append in H. lia.
  - exfalso. apply (f_equal String.length) in H. simpl in H.
    rewrite length_append in H. lia.
  - injection H as Hxy H. destruct (IH b H L) as [-> ->]. now subst.
Qed.

Lemma mem_char_append (c : ascii) (a b : string) :
  mem_char c (a ++ b) = mem_char c a || mem_char c b.
Proof.
  induction a as [|x a IH]; simpl; [reflexivity|].
  destruct (Ascii.eqb x c); [reflexivity | exact IH].
Qed.

Lemma ends_with_eq (suf s : string) :
  ends_with suf s =
  if String.eqb s suf then true
  else match s with
       | EmptyString => false
       | String _ r => ends_with suf r
       end.
Proof. destruct s; reflexivity. Qed.

Lemma ends_with_iff (suf s : string) :
  ends_with suf s = true <-> exists pre, s = pre ++ suf.
Proof.
  split.
  - induction s as [|x s IH]; rewrite ends_with_eq.
    + destruct (String.eqb_spec "" suf) as [<-|]; [|discriminate].
      intros _. now exists "".
    + destruct (String.eqb_spec (String x s) suf) as [<-|_].
      * intros _. now exists "".
      * intros H. destruct (IH H) as [pre ->]. now exists (String x pre).
  - intros [pre ->]. induction pre as [|x pre IH]; rewrite ends_with_eq.
    + simpl. now rewrite String.eqb_refl.
    + destruct (String.eqb _ _); [reflexivity | exact IH].
Qed.

(** *** basename *)

Lemma strip_trailing_slashes_append (p t : string) :
  t <> "" -> strip_trailing_slashes t = t ->
  strip_trailing_slashes (p ++ t) = p ++ t.
Proof.
  intros Ht Hs. induction p as [|x p IH]; simpl; [exact Hs|].
  rewrite IH. destruct (p ++ t) eqn:Hp; [|reflexivity].
  destruct p; simpl in Hp; [contradiction | discriminate].
Qed.

Lemma last_component_no_slash (s : string) :
  mem_char slash s = false -> last_component s = s.
Proof.
  destruct s as [|x s]; simpl; [reflexivity|].
  destruct (Ascii.eqb x slash); [discriminate|].
  intros ->. reflexivity.
Qed.

Lemma last_component_append (p t : string) :
  mem_char slash t = false ->
  last_component (p ++ t) = last_component p ++ t.
Proof.
  intros Ht. induction p as [|x p IH]; simpl.
  - now apply last_component_no_slash.
  - rewrite mem_char_append, Ht, orb_false_r.
    destruct (mem_char slash p); [exact IH|].
    destruct (Ascii.eqb x slash); reflexivity.
Qed.

Lemma last_component_clean (s : string) :
  mem_char slash (last_component s) = false.
Proof.
  induction s as [|x s IH]; simpl; [reflexivity|].
  destruct (mem_char slash s) eqn:Hs; [exact IH|].
  destruct (Ascii.eqb x slash) eqn:Hx; [exact Hs|].
  simpl. now rewrite Hx.
Qed.

(** The base name of a path that ends in [.circom]. *)
Lemma basename_circom (pre : string) :
  basename (pre ++ ".circom") = last_component pre ++ ".circom".
Proof.
  assert (Hs : strip_trailing_slashes (pre ++ ".circom") = pre ++ ".circom")
    by (apply strip_trailing_slashes_append; [discriminate | reflexivity]).
  unfold basename. rewrite Hs.
  destruct (pre ++ ".circom") eqn:Hp.
  - destruct pre; discriminate.
  - rewrite <- Hp. now apply last_component_append.
Qed.

(** *** [${s%%.*}] *)

Lemma strip_longest_dot_suffix_clean (s : string) :
  mem_char dot (strip_longest_dot_suffix s) = false.
Proof.
  induction s as [|x s IH]; simpl; [reflexivity|].
  destruct (Ascii.eqb x dot) eqn:Hx; simpl; [reflexivity|].
  now rewrite Hx.
Qed.

Lemma strip_longest_dot_suffix_no_slash (s : string) :
  mem_char slash s = false ->
  mem_char slash (strip_longest_dot_suffix s) = false.
Proof.
  induction s as [|x s IH]; simpl; [reflexivity|].
  destruct (Ascii.eqb x slash) eqn:Hx; [discriminate|]. intros Hs.
  destruct (Ascii.eqb x dot); simpl; [reflexivity|].
  rewrite Hx. auto.
Qed.

(** A string with a dot is what precedes its first dot, the dot, and a
    rest. *)
Lemma strip_longest_dot_suffix_split (s : string) :
  mem_char dot s = true ->
  exists rest, s = strip_longest_dot_suffix s ++ String dot rest.
Proof.
  induction s as [|x s IH]; simpl; [discriminate|].
  destruct (Ascii.eqb_spec x dot) as [->|_].
  - intros _. now exists s.
  - intros H. destruct (IH H) as [rest Hr]. exists rest.
    simpl. now rewrite <- Hr.
Qed.


Lemma strip_longest_dot_suffix_empty (s : string) :
  strip_longest_dot_suffix s = "" <-> s = "" \/ exists r, s = String dot r.
Proof.
  destruct s as [|x s]; simpl.
  - split; auto.
  - destruct (Ascii.eqb_spec x dot) as [->|Hx].
    + split; [right; now exists s | reflexivity].
    + split; [discriminate|].
      intros [H|[r H]]; [discriminate|]. injection H as H _. contradiction.
Qed.

(** *** The entropy pipeline *)

Lemma is_hex_not_dash (c : ascii) : is_hex c = true -> Ascii.eqb c dash = false.
Proof.
  intros H. destruct (Ascii.eqb_spec c dash) as [->|]; [|reflexivity].
  discriminate H.
Qed.

Lemma is_hex_not_newline (c : ascii) :
  is_hex c = true -> Ascii.eqb c newline = false.
Proof.
  intros H. destruct (Ascii.eqb_spec c newline) as [->|]; [|reflexivity].
  discriminate H.
Qed.

Lemma head_c_all (n : nat) (s : string) :
  String.length s <= n -> head_c n s = s.
Proof.
  revert n. induction s as [|x s IH]; intros [|n] H; simpl in *;
    try reflexivity; try lia.
  rewrite IH; [reflexivity | lia].
Qed.

Lemma strip_trailing_newlines_hex_line (h : string) :
  all_hex h = true ->
  strip_trailing_newlines (h ++ String newline "") = h.
Proof.
  induction h as [|x h IH]; simpl; [reflexivity|].
  intros H. apply andb_true_iff in H as [Hx Hh].
  rewrite (IH Hh). destruct h; [|reflexivity].
  now rewrite (is_hex_not_newline _ Hx).
Qed.

(** Without its dashes, a line of hexadecimal digits and dashes is its
    digits and the newline. *)
Lemma tr_d_line (pat : list bool) (s : string) :
  is_line_of pat s = true ->
  exists h, tr_d dash s = h ++ String newline ""
            /\ all_hex h = true
            /\ String.length h = count_occ bool_dec pat true.
Proof.
  revert s. induction pat as [|b pat IH]; intros s H.
  - destruct s as [|x [|y s]]; simpl in H; try discriminate.
    apply Ascii.eqb_eq in H. subst x. exists "". simpl. auto.
  - destruct s as [|x s]; [destruct b; discriminate|].
    destruct b; simpl in H; apply andb_true_iff in H as [Hx Hs];
      destruct (IH s Hs) as (h & Ht & Hh & Hl).
    + exists (String x h). simpl.
      rewrite (is_hex_not_dash _ Hx), Ht, Hx, Hh, Hl. auto.
    + exists h. simpl. rewrite Hx, Ht. auto.
Qed.

Lemma entropy_of_uuid (u : string) :
  is_uuid_output u = true ->
  String.length (entropy_of u) = 32 /\ all_hex (entropy_of u) = true.
Proof.
  intros H. destruct (tr_d_line _ _ H) as (h & Ht & Hh & Hl).
  change (count_occ bool_dec uuid_pattern true) with 32 in Hl.
  unfold entropy_of. rewrite Ht, head_c_all.
  - rewrite strip_trailing_newlines_hex_line by exact Hh. auto.
  - rewrite length_append, Hl. simpl. lia.
Qed.

End StringFacts.

(* ================================================================== *)
(** ** Reasoning about commands *)

Section MonadFacts.

Variable E : Env.

Lemma prepend_nil {A} (r : Result A) : prepend [] r = r.
Proof. now destruct r. Qed.

Lemma bind_test_f {B} (p : string) (k : bool -> Sh B) (w : World) :
  bind (test_f p) k w = k (is_file w p) w.
Proof. unfold bind; simpl. apply prepend_nil. Qed.

Lemma bind_pwd {B} (k : string -> Sh B) (w : World) :
  bind pwd k w = k (cwd w) w.
Proof. unfold bind; simpl. apply prepend_nil. Qed.

Lemma bind_echo {B} (c : Color) (m : string) (k : unit -> Sh B) (w : World) :
  bind (echo c m) k w = prepend [Echo c m] (k tt w).
Proof. reflexivity. Qed.

Lemma bind_pushd {B} (d : string) (k : unit -> Sh B) (w : World) :
  bind (pushd d) k w
  = k tt (mkWorld (fs w) (resolve (cwd w) d) (cwd w :: dirstack w) (draws w)).
Proof. unfold bind; simpl. apply prepend_nil. Qed.

Lemma bind_entropy {B} (k : string -> Sh B) (w : World) :
  bind (entropy E) k w
  = k (entropy_of (uuidgen E (draws w)))
      (mkWorld (fs w) (cwd w) (dirstack w) (S (draws w))).
Proof. unfold bind; simpl. apply prepend_nil. Qed.

Lemma bind_entropy_or {B} (k : string -> Sh B) (w : World) :
  bind (entropy_or E) k w
  = k (if pipe_fails E (draws w)
       then entropy_twice (uuidgen E (draws w)) (uuidgen E (S (draws w)))
       else entropy_of (uuidgen E (draws w)))
      (mkWorld (fs w) (cwd w) (dirstack w)
               (if pipe_fails E (draws w) then S (S (draws w))
                else S (draws w))).
Proof.
  unfold bind, entropy_or. destruct (pipe_fails E (draws w)); simpl;
    apply prepend_nil.
Qed.

Lemma bind_basename_cmd {B} (f : string) (k : string -> Sh B) (w : World) :
  bind (basename_cmd f) k w
  = if starts_with_dash f then mkResult [] (Exit 1) w
    else k (basename f) w.
Proof.
  unfold bind, basename_cmd. destruct (starts_with_dash f); simpl;
    [reflexivity | apply prepend_nil].
Qed.

Lemma bind_rm_f {B} (names : list string) (k : unit -> Sh B) (w : World) :
  bind (rm_f names) k w
  = if existsb starts_with_dash names then mkResult [] (Exit 1) w
    else if existsb (is_dir (fs w)) (map (resolve (cwd w)) names)
         then mkResult [Rm (cwd w) names] (Exit 1) (swept names w)
         else prepend [Rm (cwd w) names] (k tt (swept names w)).
Proof.
  unfold bind, rm_f. destruct (existsb starts_with_dash names);
    [reflexivity|]. cbn [status events world].
  destruct (existsb (is_dir (fs w)) (map (resolve (cwd w)) names));
    reflexivity.
Qed.

Lemma bind_run {B} (argv : list string) (k : unit -> Sh B) (w : World) :
  bind (run E argv) k w
  = let t := tool E (cwd w) argv (fs w) in
    let w' := mkWorld (snd t) (cwd w) (dirstack w) (draws w) in
    match fst t with
    | 0 => prepend [Run (cwd w) argv 0] (k tt w')
    | S n => mkResult [Run (cwd w) argv (S n)] (Exit (S n)) w'
    end.
Proof.
  unfold bind, run. destruct (tool E (cwd w) argv (fs w)) as [[|n] store];
    reflexivity.
Qed.

(** A file that is removed is not in the store. *)
Lemma has_file_removed (gone l : list string) (p : string) :
  In p gone ->
  existsb (String.eqb p)
          (filter (fun f => negb (existsb (String.eqb f) gone)) l) = false.
Proof.
  intros Hin. induction l as [|x l IH]; simpl; [reflexivity|].
  destruct (existsb (String.eqb x) gone) eqn:Hx; simpl; [exact IH|].
  rewrite IH, orb_false_r. apply String.eqb_neq. intros ->.
  assert (Ht : existsb (String.eqb x) gone = true)
    by (apply existsb_exists; exists x; split; [exact Hin | apply String.eqb_refl]).
  congruence.
Qed.

Lemma swept_gone (names : list string) (w : World) (name : string) :
  In name names ->
  has_file (fs (swept names w)) (resolve (cwd w) name) = false.
Proof.
  intros H. unfold swept, has_file. cbn [fs files].
  apply has_file_removed. now apply in_map.
Qed.

End MonadFacts.

(** One command of a stage: the head of the sequence is run. *)
Ltac sh_step :=
  first [ rewrite bind_echo
        | rewrite bind_pushd
        | rewrite bind_entropy
        | rewrite bind_entropy_or
        | rewrite bind_rm_f
        | rewrite bind_test_f
        | rewrite bind_pwd
        | rewrite bind_run ];
  cbv beta; cbn [cwd fs dirstack draws].

(* ================================================================== *)
(** ** The three stages *)

Ltac sh_eval :=
  cbn [events status world prepend app runs_of removals flat_map ok_runs map
       firstn nth_error fst snd cwd fs dirstack draws].

(** A tool is run: it succeeds and the stage goes on, or it fails and the
    stage is over at command [k]. *)
Ltac sh_run k :=
  rewrite bind_run; cbv beta zeta; cbn [cwd fs dirstack draws];
  match goal with
  | |- context [fst (tool ?E ?d ?a ?s)] =>
      let Hrun := fresh "Hrun" in
      destruct (fst (tool E d a s)) as [|?] eqn:Hrun;
      [ | solve [ eapply (@Aborted _ _ _ _ _ k);
                  [ reflexivity | exact Hrun | reflexivity
                  | sh_eval; reflexivity | sh_eval; reflexivity ] ] ]
  end.

(** The removal that ends a stage: [rm] refuses its names, or fails on a
    directory among them, or succeeds and the stage completes. *)
Ltac sh_gone :=
  let name := fresh "name" in
  let Hin := fresh "Hin" in
  intros name Hin;
  lazymatch goal with
  | |- has_file (fs (swept ?names ?w)) _ = false =>
      exact (@swept_gone names w name Hin)
  | |- has_file (fs (mkWorld (fs (swept ?names ?w)) _ _ _)) _ = false =>
      exact (@swept_gone names w name Hin)
  end.

Ltac sh_finish :=
  rewrite bind_rm_f; cbn [cwd fs dirstack draws];
  match goal with
  | |- context [existsb starts_with_dash ?l] =>
      let Hdash := fresh "Hdash" in
      destruct (existsb starts_with_dash l) eqn:Hdash;
      [ apply Refused; sh_eval; first [exact Hdash | reflexivity]
      | match goal with
        | |- context [existsb (is_dir ?s) ?m] =>
            let Hheld := fresh "Hheld" in
            destruct (existsb (is_dir s) m) eqn:Hheld;
            [ apply (@Held _ _ _ _ _ s);
              sh_eval;
              first [exact Hdash | exact Hheld | reflexivity | sh_gone]
            | unfold popd; cbn [dirstack swept];
              apply Completed; sh_eval;
              first [exact Hdash | reflexivity | sh_gone] ]
        end ]
  end.

Section Stages.

Variable E : Env.
Variable c : Config.
Variable w : World.

Lemma phase1_skips :
  is_file w (PTAU_FILE c) = true ->
  phase1_stage E c w = mkResult [phase1_reuse_notice c] (Done tt) w.
Proof.
  intros H. unfold phase1_stage. rewrite bind_test_f, H. reflexivity.
Qed.

Lemma compile_skips :
  is_file w (R1CS_FILE c) = true ->
  compile_stage E c w = mkResult [compile_reuse_notice c] (Done tt) w.
Proof.
  intros H. unfold compile_stage. rewrite bind_test_f, H. reflexivity.
Qed.

Lemma groth16_skips :
  is_file w (VK_JSON c) = true ->
  groth16_stage E c w = mkResult [phase2_reuse_notice c] (Done tt) w.
Proof.
  intros H. unfold groth16_stage. rewrite bind_test_f, H. reflexivity.
Qed.

Lemma phase1_outcome :
  is_file w (PTAU_FILE c) = false ->
  StageOutcome E (phase1_commands E c w) (resolve (cwd w) (POWERS_DIR c))
               (phase1_intermediates c) (phase1_stage E c w).
Proof.
  intros H. unfold phase1_stage. rewrite bind_test_f, H. cbn [negb].
  do 2 sh_step. sh_run 0.
  do 2 sh_step. sh_run 1.
  do 2 sh_step. sh_run 2.
  sh_step. sh_run 3.
  sh_step. sh_run 4.
  sh_run 5.
  sh_step. sh_run 6.
  sh_step. sh_run 7.
  sh_step. sh_run 8.
  sh_step. sh_run 9.
  sh_step. sh_finish.
Qed.

Lemma groth16_outcome :
  is_file w (VK_JSON c) = false ->
  StageOutcome E (phase2_commands E c w) (resolve (cwd w) (KEYS_DIR c))
               (phase2_intermediates c) (groth16_stage E c w).
Proof.
  intros H. unfold groth16_stage. rewrite bind_test_f, H. cbn [negb].
  do 2 sh_step. sh_run 0.
  do 2 sh_step. sh_run 1.
  do 2 sh_step. sh_run 2.
  sh_step. sh_run 3.
  sh_step. sh_run 4.
  sh_run 5.
  sh_step. sh_run 6.
  sh_step. sh_run 7.
  sh_step. sh_run 8.
  sh_step. sh_run 9.
  sh_step. sh_finish.
Qed.

End Stages.

(* ================================================================== *)
(** ** Fail-fast: a failed tool is the last thing a run does *)

Section FailFast.

Variable E : Env.

Lemma failfast_bind {A B} (m : Sh A) (k : A -> Sh B) :
  (forall w, failfast (m w)) -> (forall a w, failfast (k a w)) ->
  forall w, failfast (bind m k w).
Proof.
  intros Hm Hk w. specialize (Hm w). unfold bind, failfast in *.
  destruct (status (m w)) as [a|code] eqn:Hs; [|exact Hm].
  specialize (Hk a (world (m w))). cbn [status events prepend].
  destruct (status (k a (world (m w)))) as [b|code].
  - apply Forall_app; auto.
  - destruct Hk as [Hq|(pre & d & argv & He & Hc & Hq)].
    + left. apply Forall_app; auto.
    + right. exists (events (m w) ++ pre)%list, d, argv.
      rewrite He, app_assoc. repeat split; auto. apply Forall_app; auto.
Qed.

Lemma failfast_silent {A} (m : Sh A) :
  (forall w, Forall quiet (events (m w))) -> forall w, failfast (m w).
Proof.
  intros H w. unfold failfast. destruct (status (m w)); auto.
Qed.

Lemma failfast_echo col msg w : failfast (echo col msg w).
Proof. apply failfast_silent. intros; repeat constructor. Qed.

Lemma failfast_exit code w : failfast (exit code w).
Proof. apply failfast_silent. intros; constructor. Qed.

Lemma failfast_pwd w : failfast (pwd w).
Proof. apply failfast_silent. intros; constructor. Qed.

Lemma failfast_test_f p w : failfast (test_f p w).
Proof. apply failfast_silent. intros; constructor. Qed.

Lemma failfast_mkdir_p d w : failfast (mkdir_p d w).
Proof.
  apply failfast_silent. intros w'. unfold mkdir_p.
  destruct (blocked _ _); [constructor|].
  destruct (is_dir _ _); constructor.
Qed.

Lemma failfast_pushd d w : failfast (pushd d w).
Proof. apply failfast_silent. intros; constructor. Qed.

Lemma failfast_popd w : failfast (popd w).
Proof.
  apply failfast_silent. intros w'. unfold popd.
  destruct (dirstack w'); constructor.
Qed.

Lemma failfast_rm_f names w : failfast (rm_f names w).
Proof.
  apply failfast_silent. intros w'. unfold rm_f.
  destruct (existsb starts_with_dash names); repeat constructor.
Qed.

Lemma failfast_entropy w : failfast (entropy E w).
Proof. apply failfast_silent. intros; constructor. Qed.

Lemma failfast_entropy_or w : failfast (entropy_or E w).
Proof.
  apply failfast_silent. intros w'. unfold entropy_or.
  destruct (pipe_fails E (draws w')); constructor.
Qed.

Lemma failfast_basename_cmd f w : failfast (basename_cmd f w).
Proof.
  apply failfast_silent. intros w'. unfold basename_cmd.
  destruct (starts_with_dash f); constructor.
Qed.

Lemma failfast_run argv w : failfast (run E argv w).
Proof.
  unfold failfast, run.
  destruct (tool E (cwd w) argv (fs w)) as [[|n] store]; cbn [status events].
  - repeat constructor.
  - right. exists [], (cwd w), argv. repeat split; auto.
Qed.

Lemma failfast_notice (e : Event) w :
  quiet e -> failfast (mkResult [e] (Done tt) w).
Proof. intros H. unfold failfast; cbn. auto. Qed.

Lemma failfast_fail msgs w : failfast (fail msgs w).
Proof.
  revert w. induction msgs as [|m msgs IH]; cbn [fail fold_right]; intros w.
  - apply failfast_exit.
  - apply failfast_bind; [apply failfast_echo | intros _; exact IH].
Qed.

End FailFast.

(** A primitive command is fail-fast. *)
Ltac failfast_prim :=
  lazymatch goal with
  | |- failfast (echo _ _ _) => apply failfast_echo
  | |- failfast (run _ _ _) => apply failfast_run
  | |- failfast (entropy _ _) => apply failfast_entropy
  | |- failfast (entropy_or _ _) => apply failfast_entropy_or
  | |- failfast (basename_cmd _ _) => apply failfast_basename_cmd
  | |- failfast (pushd _ _) => apply failfast_pushd
  | |- failfast (popd _) => apply failfast_popd
  | |- failfast (rm_f _ _) => apply failfast_rm_f
  | |- failfast (exit _ _) => apply failfast_exit
  | |- failfast (test_f _ _) => apply failfast_test_f
  | |- failfast (pwd _) => apply failfast_pwd
  | |- failfast (mkdir_p _ _) => apply failfast_mkdir_p
  | |- failfast (fail _ _) => apply failfast_fail
  end.

(** A sequence of commands is fail-fast when each of them is. *)
Ltac failfast_seq :=
  repeat (lazymatch goal with
          | |- forall w, failfast (bind _ _ w) =>
              apply failfast_bind; [intros; failfast_prim | intros ?]
          end);
  intros; failfast_prim.

Section FailFastScript.

Variable E : Env.

Lemma failfast_phase1 c w : failfast (phase1_stage E c w).
Proof.
  unfold phase1_stage. revert w. apply failfast_bind.
  - intros; failfast_prim.
  - intros [|] w; cbn [negb].
    + now apply failfast_notice.
    + revert w. failfast_seq.
Qed.

Lemma failfast_compile c w : failfast (compile_stage E c w).
Proof.
  unfold compile_stage. revert w. apply failfast_bind.
  - intros; failfast_prim.
  - intros [|] w; cbn [negb].
    + now apply failfast_notice.
    + revert w. failfast_seq.
Qed.

Lemma failfast_groth16 c w : failfast (groth16_stage E c w).
Proof.
  unfold groth16_stage. revert w. apply failfast_bind.
  - intros; failfast_prim.
  - intros [|] w; cbn [negb].
    + now apply failfast_notice.
    + revert w. failfast_seq.
Qed.

Lemma failfast_summary c w : failfast (summary c w).
Proof. unfold summary. revert w. failfast_seq. Qed.

Lemma failfast_pipeline file power w : failfast (pipeline E file power w).
Proof.
  unfold pipeline. revert w. apply failfast_bind; [intros; failfast_prim|].
  intros _. apply failfast_bind; [intros; failfast_prim|].
  intros root. cbv zeta.
  repeat (lazymatch goal with
          | |- forall w, failfast (bind _ _ w) =>
              apply failfast_bind;
              [ intros;
                lazymatch goal with
                | |- failfast (phase1_stage _ _ _) => apply failfast_phase1
                | |- failfast (compile_stage _ _ _) => apply failfast_compile
                | |- failfast (groth16_stage _ _ _) => apply failfast_groth16
                | _ => failfast_prim
                end
              | intros _ ]
          end).
  intros w. apply failfast_summary.
Qed.

Lemma failfast_main argv w : failfast (main E argv w).
Proof.
  unfold main. destruct argv as [|a argv].
  - unfold usage. revert w. failfast_seq.
  - destruct (parse_args (a :: argv) "" "") as [opt|[file power]].
    + apply failfast_fail.
    + destruct (String.eqb file ""); [apply failfast_fail|].
      revert w. apply failfast_bind; [intros; failfast_prim|].
      intros there w.
      repeat match goal with
             | |- failfast ((if ?b then _ else _) _) => destruct b
             end;
        lazymatch goal with
        | |- failfast (pipeline _ _ _ _) => apply failfast_pipeline
        | |- failfast (fail _ _) => apply failfast_fail
        | _ => revert w; failfast_seq
        end.
Qed.

End FailFastScript.

(* ================================================================== *)
(** ** The script on sample arguments, and its validation *)

Example basename_samples :
  basename "circuits/Pinacle.circom" = "Pinacle.circom"
  /\ basename "a/b//" = "b"
  /\ basename "///" = "/"
  /\ basename ".circom" = ".circom".
Proof. repeat split. Qed.

Example strip_longest_dot_suffix_samples :
  strip_longest_dot_suffix "Pinacle.circom" = "Pinacle"
  /\ strip_longest_dot_suffix "archive.tar.gz" = "archive"
  /\ strip_longest_dot_suffix "plain" = "plain".
Proof. repeat split. Qed.

Example parse_args_samples :
  parse_args ["--circom"; "a.circom"; "--power"; "12"] "" ""
  = inr ("a.circom", "12")
  /\ parse_args ["--power"; "12"; "--circom"] "" "" = inr ("", "12")
  /\ parse_args ["--circom"; "--power"; "12"] "" "" = inl "12"
  /\ parse_args ["-v"] "" "" = inl "-v".
Proof. repeat split. Qed.

Example main_without_arguments :
  status (main env_ok [] (world0 "/w" [])) = Exit 1
  /\ length (events (main env_ok [] (world0 "/w" []))) = 5.
Proof. split; reflexivity. Qed.

(** A first run in an empty tree, with snarkjs writing the file that each
    step names as its output, leaves the final ptau, the final zkey and the
    verification key, and none of the intermediate files.  With the
    constraint system of circom in the store as well, a second run runs no
    tool. *)
Example two_runs :
  let args := ["--circom"; "circuits/Pinacle.circom"; "--power"; "12"] in
  let w := world0 "/w" ["/w/circuits/Pinacle.circom"] in
  let first := main (env_writing []) args w in
  let w' := mkWorld (mkFS ("/w/circuits/build/Pinacle/Pinacle.r1cs"
                           :: files (fs (world first)))
                          (dirs (fs (world first)))) "/w" [] 0 in
  let second := main (env_writing []) args w' in
  status first = Done tt
  /\ length (runs_of (events first)) = 23
  /\ files (fs (world first))
     = [ "/w/circuits/build/Pinacle/keys/verification_key.json";
         "/w/circuits/build/Pinacle/keys/Pinacle_final.zkey";
         "/w/powersOfTau/pot12_final.ptau";
         "/w/circuits/Pinacle.circom" ]
  /\ status second = Done tt
  /\ runs_of (events second) = [].
Proof. cbv zeta. repeat split; vm_compute; reflexivity. Qed.

(** The directories above a path, and a run in which [circuits] is a
    regular file: phase 1 runs to its end, then [mkdir -p] of the build
    directory fails and the script ends with status 1. *)
Example ancestors_sample :
  ancestors "/w/circuits/build/Pinacle"
  = ["/w"; "/w/circuits"; "/w/circuits/build"].
Proof. reflexivity. Qed.

Example mkdir_under_a_file :
  let args := ["--circom"; "x.circom"; "--power"; "12"] in
  let w := world0 "/w" ["/w/x.circom"; "/w/circuits"] in
  let r := main (env_writing []) args w in
  status r = Exit 1
  /\ length (runs_of (events r)) = 10
  /\ is_file (world r) "/w/powersOfTau/pot12_final.ptau" = true.
Proof. cbv zeta. repeat split; vm_compute; reflexivity. Qed.

Section Validation.

Variable E : Env.
Variable w : World.
Variables file power : string.
Variable args : list string.

Hypothesis Hargs : args <> [].
Hypothesis Hparse : parse_args args "" "" = inr (file, power).

(** An argument that [circom_accepted] refuses ends the script before any
    tool is run. *)
Lemma main_rejects :
  circom_accepted w file = false ->
  status (main E args w) = Exit 1 /\ runs_of (events (main E args w)) = [].
Proof.
  unfold circom_accepted, main. destruct args as [|a l]; [congruence|].
  rewrite Hparse. destruct (String.eqb file ""); [split; reflexivity|].
  rewrite bind_test_f. destruct (is_file w file); [|split; reflexivity].
  cbn [negb andb]. intros ->. split; reflexivity.
Qed.

(** An accepted argument, with a numeric exponent and both tools
    installed, starts the pipeline. *)
Lemma main_accepts :
  circom_accepted w file = true -> is_number power = true ->
  on_path E "circom" = true -> on_path E "snarkjs" = true ->
  main E args w = pipeline E file power w.
Proof.
  unfold circom_accepted, main. destruct args as [|a l]; [congruence|].
  rewrite Hparse. intros Hacc Hnum Hc Hs.
  apply andb_true_iff in Hacc as [Hacc Hsuf].
  apply andb_true_iff in Hacc as [Hne Hf].
  apply negb_true_iff in Hne. rewrite Hne, bind_test_f, Hf, Hsuf, Hnum, Hc, Hs.
  cbn [negb]. destruct power; [discriminate Hnum | reflexivity].
Qed.

End Validation.

(* ================================================================== *)
(** ** deploy.go *)

Section DerefFacts.

Variable Address : Type.

Let step (addrs : list Address) (ptr : option Address) : list Address :=
  match ptr with
  | Some a => (addrs ++ [a])%list
  | None => addrs
  end.

Lemma deref_loop (ptrs : list (option Address)) (acc : list Address) :
  fold_left step ptrs acc = (acc ++ Deploy.non_nil_values ptrs)%list.
Proof.
  revert acc. induction ptrs as [|[a|] ptrs IH]; intros acc; simpl.
  - now rewrite app_nil_r.
  - rewrite IH, <- app_assoc. reflexivity.
  - apply IH.
Qed.

Lemma non_nil_values_filter (ptrs : list (option Address)) :
  map Some (Deploy.non_nil_values ptrs)
  = filter (fun p => match p with Some _ => true | None => false end) ptrs.
Proof.
  induction ptrs as [|[a|] ptrs IH]; simpl; [reflexivity | | exact IH].
  now rewrite IH.
Qed.

Lemma non_nil_values_length (ptrs : list (option Address)) :
  length (Deploy.non_nil_values ptrs) <= length ptrs.
Proof.
  induction ptrs as [|[a|] ptrs IH]; simpl; lia.
Qed.

Lemma non_nil_values_full (ptrs : list (option Address)) :
  length (Deploy.non_nil_values ptrs) = length ptrs
  <-> Forall (fun p => p <> None) ptrs.
Proof.
  induction ptrs as [|[a|] ptrs IH]; simpl.
  - split; auto.
  - split.
    + intros H. constructor; [discriminate|]. apply IH. lia.
    + intros H. inversion H; subst. f_equal. now apply IH.
  - split.
    + intros H. pose proof (non_nil_values_length ptrs). lia.
    + intros H. inversion H; subst. congruence.
Qed.

(** C10.  For every slice of address pointers, [derefAddresses] returns
    the values of the entries that are not nil, in the order of the
    slice: wrapped again as pointers they are the slice without its nil
    entries.  The result is at most as long as the slice, and as long as
    the slice exactly when no entry is nil. *)
Theorem derefAddresses_non_nil (ptrs : list (option Address)) :
  Deploy.derefAddresses ptrs = Deploy.non_nil_values ptrs
  /\ map Some (Deploy.derefAddresses ptrs)
     = filter (fun p => match p with Some _ => true | None => false end) ptrs
  /\ length (Deploy.derefAddresses ptrs) <= length ptrs
  /\ (length (Deploy.derefAddresses ptrs) = length ptrs
      <-> Forall (fun p => p <> None) ptrs).
Proof.
  assert (H : Deploy.derefAddresses ptrs = Deploy.non_nil_values ptrs)
    by (unfold Deploy.derefAddresses; apply (deref_loop ptrs [])).
  rewrite H. split; [reflexivity|]. split; [apply non_nil_values_filter|].
  split; [apply non_nil_values_length | apply non_nil_values_full].
Qed.

End DerefFacts.

(* ================================================================== *)
(** ** The circuit name and the paths derived from it *)

Section Names.

Variable w : World.
Variables file power root : string.

Let c : Config := mkConfig file power root.

Lemma accepted_ends_in_circom :
  circom_accepted w file = true -> exists pre, file = pre ++ ".circom".
Proof.
  unfold circom_accepted. intros H.
  apply andb_true_iff in H as [_ H]. now apply ends_with_iff.
Qed.

(** Line 107 ends the script for an argument that begins with a dash. *)
Lemma pipeline_refuses_dash (E : Env) (f p : string) (w0 : World) :
  starts_with_dash f = true ->
  pipeline E f p w0 = mkResult [] (Exit 1) w0.
Proof.
  intros H. unfold pipeline. rewrite bind_basename_cmd, H. reflexivity.
Qed.

(** Line 116 prints the name that lines 107-108 derive. *)
Lemma pipeline_names_circuit (E : Env) (f p : string) (w0 : World) :
  starts_with_dash f = false ->
  In (Echo Green ("Circuit name: " ++ CIRCOM_NAME (mkConfig f p (cwd w0))))
     (events (pipeline E f p w0)).
Proof.
  intros H. unfold pipeline. rewrite bind_basename_cmd, H, bind_pwd.
  cbv zeta. do 2 rewrite bind_echo. cbn [events prepend app].
  right. left. reflexivity.
Qed.



(** C8, as the script has it.  A --circom argument that passes the
    validation and begins with a dash ends the script on line 107.  For
    every other argument that passes, the circuit name has no slash and no
    dot, it is the beginning of the base name, character for character, up
    to the first dot, and it is empty exactly when the base name begins
    with a dot. *)
Theorem circom_name_token (E : Env) :
  circom_accepted w file = true ->
  (starts_with_dash file = true ->
   pipeline E file power w = mkResult [] (Exit 1) w)
  /\ (starts_with_dash file = false ->
      In (Echo Green ("Circuit name: " ++ CIRCOM_NAME c))
         (events (pipeline E file power w))
      /\ mem_char slash (CIRCOM_NAME c) = false
      /\ mem_char dot (CIRCOM_NAME c) = false
      /\ (exists rest, basename file = CIRCOM_NAME c ++ String dot rest)
      /\ (CIRCOM_NAME c = "" <-> exists r, CIRCOM_BASENAME c = String dot r)).
Proof.
  intros H. split; [apply pipeline_refuses_dash|]. intros Hdash.
  destruct (accepted_ends_in_circom H) as [pre Hpre].
  assert (Hb : CIRCOM_BASENAME c = last_component pre ++ ".circom")
    by (unfold CIRCOM_BASENAME, c; cbn [CIRCOM_FILE]; rewrite Hpre;
        apply basename_circom).
  split; [|split; [|split; [|split]]].
  - apply (pipeline_names_circuit E file power w Hdash).
  - unfold CIRCOM_NAME. apply strip_longest_dot_suffix_no_slash.
    rewrite Hb, mem_char_append, last_component_clean. reflexivity.
  - apply strip_longest_dot_suffix_clean.
  - change (basename file) with (CIRCOM_BASENAME c).
    unfold CIRCOM_NAME. apply strip_longest_dot_suffix_split.
    rewrite Hb, mem_char_append. apply orb_true_r.
  - unfold CIRCOM_NAME. rewrite strip_longest_dot_suffix_empty.
    split; [|auto]. intros [He|Hr]; [|exact Hr].
    rewrite Hb in He. destruct (last_component pre); discriminate.
Qed.

End Names.



(** C8 fails as stated: the file circuits/.circom passes the validation
    and its circuit name is empty. *)
Lemma circom_name_empty :
  let file := "circuits/.circom" in
  let w := world0 "/w" ["/w/circuits/.circom"] in
  circom_accepted w file = true
  /\ CIRCOM_NAME (mkConfig file "12" "/w") = "".
Proof. cbv zeta. split; reflexivity. Qed.

Lemma circom_name_token_witness :
  let file := "circuits/Pinacle.circom" in
  let w := world0 "/w" ["/w/circuits/Pinacle.circom"] in
  let c := mkConfig file "12" "/w" in
  (circom_accepted w file = true /\ starts_with_dash file = false)
  /\ In (Echo Green "Circuit name: Pinacle")
        (events (pipeline env_ok file "12" w))
  /\ mem_char slash (CIRCOM_NAME c) = false
  /\ mem_char dot (CIRCOM_NAME c) = false
  /\ (exists rest, basename file = CIRCOM_NAME c ++ String dot rest)
  /\ (CIRCOM_NAME c = "" <-> exists r, CIRCOM_BASENAME c = String dot r).
Proof.
  split; [split; reflexivity|].
  apply (@circom_name_token
           (world0 "/w" ["/w/circuits/Pinacle.circom"])
           "circuits/Pinacle.circom" "12" "/w" env_ok); reflexivity.
Defined.

(** An argument that begins with a dash passes the validation and ends the
    script on line 107, before anything is printed or run. *)
Example dash_argument_ends_script :
  let w := world0 "/w" ["/w/-x.circom"] in
  circom_accepted w "-x.circom" = true
  /\ main env_ok ["--circom"; "-x.circom"; "--power"; "12"] w
     = mkResult [] (Exit 1) w.
Proof. cbv zeta. split; reflexivity. Qed.

(* ================================================================== *)
(** ** The path given to the compiler *)

Section CompilerPath.

Variable E : Env.
Variable c : Config.
Variable w : World.

(** The first tool that the compile stage runs is circom, on
    [compiler_path]. *)
Lemma compile_runs_circom :
  is_file w (R1CS_FILE c) = false ->
  exists st,
    hd_error (runs_of (events (compile_stage E c w)))
    = Some (["circom"; compiler_path c; "--r1cs"; "--wasm"; "--sym"], st).
Proof.
  intros H. unfold compile_stage. rewrite bind_test_f, H. cbn [negb].
  do 2 sh_step. rewrite bind_run. cbv beta zeta.
  destruct (fst (tool E _ _ _)); sh_eval; eexists; reflexivity.
Qed.

(** For a relative argument the two paths are the same. *)
Lemma compiler_path_relative :
  is_absolute (CIRCOM_FILE c) = false -> compiler_path c = validated_path c.
Proof.
  intros H. unfold compiler_path, validated_path, resolve. now rewrite H.
Qed.

(** C9.  The compile step gives circom the invocation directory, a slash
    and the --circom argument.  The validation looks the argument up from
    the invocation directory, so for an absolute argument it checks the
    argument itself, and the path given to the compiler is another
    one. *)
Theorem compiler_path_absolute :
  is_absolute (CIRCOM_FILE c) = true ->
  is_file w (R1CS_FILE c) = false ->
  (exists st,
      hd_error (runs_of (events (compile_stage E c w)))
      = Some (["circom"; ROOT_DIR c ++ "/" ++ CIRCOM_FILE c;
               "--r1cs"; "--wasm"; "--sym"], st))
  /\ (forall w0, cwd w0 = ROOT_DIR c ->
                 is_file w0 (CIRCOM_FILE c) = has_file (fs w0) (validated_path c))
  /\ validated_path c = CIRCOM_FILE c
  /\ compiler_path c <> validated_path c.
Proof.
  intros Habs Hgate. split; [exact (compile_runs_circom Hgate)|].
  assert (Hv : validated_path c = CIRCOM_FILE c)
    by (unfold validated_path, resolve; now rewrite Habs).
  split; [|split; [exact Hv|]].
  - intros w0 Hw. unfold is_file, validated_path. now rewrite Hw.
  - rewrite Hv. unfold compiler_path. intros Heq.
    apply (f_equal String.length) in Heq.
    rewrite !length_append in Heq. simpl in Heq. lia.
Qed.

End CompilerPath.

Lemma compiler_path_absolute_witness :
  let c := mkConfig "/home/u/Pinacle.circom" "12" "/w" in
  let w := world0 "/w" ["/home/u/Pinacle.circom"] in
  circom_accepted w (CIRCOM_FILE c) = true
  /\ (exists st,
        hd_error (runs_of (events (compile_stage env_ok c w)))
        = Some (["circom"; "/w//home/u/Pinacle.circom";
                 "--r1cs"; "--wasm"; "--sym"], st))
  /\ (forall w0, cwd w0 = ROOT_DIR c ->
                 is_file w0 (CIRCOM_FILE c) = has_file (fs w0) (validated_path c))
  /\ validated_path c = "/home/u/Pinacle.circom"
  /\ compiler_path c <> validated_path c.
Proof.
  split; [reflexivity|].
  apply (@compiler_path_absolute env_ok
           (mkConfig "/home/u/Pinacle.circom" "12" "/w")
           (world0 "/w" ["/home/u/Pinacle.circom"])); reflexivity.
Defined.

(* ================================================================== *)
(** ** The entropy of a contribution *)

(** C1, on the script.  Every contribution draws its entropy with the
    command [entropy], a call of uuidgen of its own, and passes it as the
    [-e=] argument ([token] in the commands of the two ceremonies); the
    contribution of line 142 does so with [entropy_or], which is the same
    command when its first pipeline succeeds.  When uuidgen prints a UUID,
    the token is its 32 hexadecimal digits, that is 128 bits: the
    [head -c40] of the script never has 40 characters to take. *)
Theorem entropy_token_is_32_hex (E : Env) (w : World) :
  is_uuid_output (uuidgen E (draws w)) = true ->
  exists tok,
    status (entropy E w) = Done tok
    /\ tok = token E w 0
    /\ draws (world (entropy E w)) = S (draws w)
    /\ String.length tok = 32
    /\ all_hex tok = true
    /\ 4 * String.length tok < 160
    /\ (pipe_fails E (draws w) = false ->
        status (entropy_or E w) = Done tok
        /\ draws (world (entropy_or E w)) = S (draws w)).
Proof.
  intros H. exists (entropy_of (uuidgen E (draws w))).
  destruct (entropy_of_uuid _ H) as [Hl Hh].
  split; [reflexivity|]. split; [reflexivity|]. split; [reflexivity|].
  split; [exact Hl|]. split; [exact Hh|]. split; [rewrite Hl; lia|].
  intros Hp. unfold entropy_or. rewrite Hp. split; reflexivity.
Qed.

Lemma entropy_token_is_32_hex_witness :
  is_uuid_output sample_uuid = true
  /\ exists tok,
       status (entropy env_ok (world0 "/w" [])) = Done tok
       /\ tok = token env_ok (world0 "/w" []) 0
       /\ draws (world (entropy env_ok (world0 "/w" []))) = 1
       /\ String.length tok = 32
       /\ all_hex tok = true
       /\ 4 * String.length tok < 160
       /\ (pipe_fails env_ok 0 = false ->
           status (entropy_or env_ok (world0 "/w" [])) = Done tok
           /\ draws (world (entropy_or env_ok (world0 "/w" []))) = 1).
Proof.
  split; [reflexivity|].
  apply (@entropy_token_is_32_hex env_ok (world0 "/w" [])). reflexivity.
Defined.

(** The token that the sample UUID gives. *)
Lemma entropy_of_sample :
  entropy_of sample_uuid = "123e4567e89b42d3a456426614174000".
Proof. reflexivity. Qed.

(* ================================================================== *)
(** ** What the outcome of a stage tells *)

Section ListFacts.

Context {A : Type}.

Lemma firstn_snoc_nth (l : list A) (k : nat) (a : A) :
  nth_error l k = Some a -> firstn (S k) l = (firstn k l ++ [a])%list.
Proof.
  revert k. induction l as [|x l IH]; intros [|k] H; simpl in *;
    try discriminate.
  - now injection H as ->.
  - f_equal. now apply IH.
Qed.

Lemma firstn_before_last (init : list A) (last a : A) (k : nat) :
  nth_error (init ++ [last]) k = Some a ->
  firstn k (init ++ [last]) = firstn k init.
Proof.
  intros H. assert (Hk : k < length (init ++ [last]))
    by (apply nth_error_Some; congruence).
  rewrite length_app in Hk. simpl in Hk.
  rewrite firstn_app. replace (k - length init) with 0 by lia.
  simpl. apply app_nil_r.
Qed.

Lemma in_firstn (l : list A) (k : nat) (a : A) : In a (firstn k l) -> In a l.
Proof.
  revert k. induction l as [|x l IH]; intros [|k]; simpl; try tauto.
  intros [H|H]; eauto.
Qed.

End ListFacts.

Lemma map_fst_ok_runs (cmds : list (list string)) :
  map fst (ok_runs cmds) = cmds.
Proof.
  unfold ok_runs. rewrite map_map. simpl. apply map_id.
Qed.

Lemma in_ok_runs (cmds : list (list string)) (a : list string) (st : nat) :
  In (a, st) (ok_runs cmds) <-> st = 0 /\ In a cmds.
Proof.
  unfold ok_runs. rewrite in_map_iff. split.
  - intros (x & Hx & Hin). injection Hx as -> <-. auto.
  - intros [-> Hin]. now exists a.
Qed.

Lemma linked_firstn (steps : list (option ContributionRecord)) :
  forall latest k, linked latest steps -> linked latest (firstn k steps).
Proof.
  induction steps as [|[s|] steps IH]; intros latest [|k] H; simpl in *;
    try tauto.
  destruct H as [H1 H2]. split; auto.
Qed.

Section OutcomeFacts.

Variable E : Env.
Variable init : list (list string).
Variable last : list string.
Variable dir : string.
Variable junk : list string.
Variable r : Result unit.

(** The stage was skipped, or it ran. *)
Hypothesis Hout :
  (runs_of (events r) = [] /\ removals (events r) = [])
  \/ StageOutcome E (init ++ [last]) dir junk r.

Lemma outcome_prefix :
  exists k, map fst (runs_of (events r)) = firstn k (init ++ [last]).
Proof.
  destruct Hout as [[Hr _]|[Hj Hs Hr Hrm Hg|k a n store Hk Ht Hs Hr Hrm
                             |Hj Hs Hr Hrm|store Hj Hd Hs Hr Hrm Hg]].
  - exists 0. now rewrite Hr.
  - exists (length (init ++ [last])).
    now rewrite Hr, map_fst_ok_runs, firstn_all.
  - exists (S k). rewrite Hr, map_app, map_fst_ok_runs. simpl.
    symmetry. now apply firstn_snoc_nth.
  - exists (length (init ++ [last])).
    now rewrite Hr, map_fst_ok_runs, firstn_all.
  - exists (length (init ++ [last])).
    now rewrite Hr, map_fst_ok_runs, firstn_all.
Qed.

Lemma outcome_failure_keeps (a : list string) (n : nat) :
  In (a, S n) (runs_of (events r)) -> removals (events r) = [].
Proof.
  destruct Hout as [[Hr Hrm]|[Hj Hs Hr Hrm Hg|k a' n' store Hk Ht Hs Hr Hrm
                               |Hj Hs Hr Hrm|store Hj Hd Hs Hr Hrm Hg]];
    auto; rewrite Hr, in_ok_runs; intros [H _]; discriminate.
Qed.

Lemma outcome_removed :
  removed_paths (events r) = []
  \/ removed_paths (events r) = map (resolve dir) junk.
Proof.
  unfold removed_paths.
  destruct Hout as [[Hr Hrm]|[Hj Hs Hr Hrm Hg|k a' n' store Hk Ht Hs Hr Hrm
                               |Hj Hs Hr Hrm|store Hj Hd Hs Hr Hrm Hg]];
    rewrite Hrm; simpl; auto; right; apply app_nil_r.
Qed.

Hypothesis Hfresh : ~ In last init.

(** The names are removed exactly when the last command has succeeded
    and [rm] takes the names for names. *)
Lemma outcome_cleanup_iff :
  removals (events r) = [(dir, junk)]
  <-> In (last, 0) (runs_of (events r))
      /\ existsb starts_with_dash junk = false.
Proof.
  destruct Hout as [[Hr Hrm]|[Hj Hs Hr Hrm Hg|k a n store Hk Ht Hs Hr Hrm
                               |Hj Hs Hr Hrm|store Hj Hd Hs Hr Hrm Hg]];
    rewrite Hr, Hrm.
  - simpl. split; [discriminate | tauto].
  - split; [|reflexivity]. intros _. split; [|exact Hj].
    apply in_ok_runs. split; auto. apply in_or_app. right. now left.
  - split; [discriminate|]. intros [H _]. exfalso.
    apply in_app_or in H as [H|[H|[]]]; [|discriminate].
    apply in_ok_runs in H as [_ H].
    rewrite (firstn_before_last _ _ _ Hk) in H.
    apply Hfresh. eapply in_firstn; eauto.
  - split; [discriminate|]. intros [_ H]. congruence.
  - split; [|reflexivity]. intros _. split; [|exact Hj].
    apply in_ok_runs. split; auto. apply in_or_app. right. now left.
Qed.

(** A run removes nothing or the names of the stage. *)
Lemma outcome_removals :
  removals (events r) = [] \/ removals (events r) = [(dir, junk)].
Proof.
  destruct Hout as [[Hr Hrm]|[Hj Hs Hr Hrm Hg|k a n store Hk Ht Hs Hr Hrm
                               |Hj Hs Hr Hrm|store Hj Hd Hs Hr Hrm Hg]];
    auto.
Qed.

(** What [rm] was given is not in the store afterwards. *)
Lemma outcome_gone :
  removals (events r) = [(dir, junk)] ->
  forall name, In name junk ->
               has_file (fs (world r)) (resolve dir name) = false.
Proof.
  destruct Hout as [[Hr Hrm]|[Hj Hs Hr Hrm Hg|k a n store Hk Ht Hs Hr Hrm
                               |Hj Hs Hr Hrm|store Hj Hd Hs Hr Hrm Hg]];
    auto; rewrite Hrm; discriminate.
Qed.

(** The last command has succeeded exactly when the run has gone through
    all the commands. *)
Lemma outcome_last_iff :
  In (last, 0) (runs_of (events r))
  <-> runs_of (events r) = ok_runs (init ++ [last]).
Proof.
  split.
  - destruct Hout as [[Hr Hrm]|[Hj Hs Hr Hrm Hg|k a n store Hk Ht Hs Hr Hrm
                                 |Hj Hs Hr Hrm|store Hj Hd Hs Hr Hrm Hg]];
      auto; rewrite Hr; intros H; exfalso.
    + destruct H.
    + apply in_app_or in H as [H|[H|[]]]; [|discriminate].
      apply in_ok_runs in H as [_ H].
      rewrite (firstn_before_last _ _ _ Hk) in H.
      apply Hfresh. eapply in_firstn; eauto.
  - intros ->. apply in_ok_runs. split; auto.
    apply in_or_app. right. now left.
Qed.

Lemma outcome_earlier (a : list string) :
  In (last, 0) (runs_of (events r)) -> In a init ->
  In (a, 0) (runs_of (events r)).
Proof.
  intros Hl Ha. apply outcome_last_iff in Hl. rewrite Hl.
  apply in_ok_runs. split; auto. apply in_or_app. now left.
Qed.

End OutcomeFacts.

(** When no tool fails every command runs; the stage then completes
    unless [rm] fails. *)
Lemma outcome_succeeds (E : Env) cmds dir junk r :
  tools_succeed E -> StageOutcome E cmds dir junk r ->
  runs_of (events r) = ok_runs cmds
  /\ (status r = Done tt \/ status r = Exit 1)
  /\ (status r = Done tt -> removals (events r) = [(dir, junk)])
  /\ (existsb starts_with_dash junk = true <-> removals (events r) = []).
Proof.
  intros Hok [Hj Hs Hr Hrm Hg|k a n store Hk Ht Hs Hr Hrm
             |Hj Hs Hr Hrm|store Hj Hd Hs Hr Hrm Hg].
  2: rewrite Hok in Ht; discriminate.
  all: split; [exact Hr|]; split; [auto|];
    split; [intros H; congruence|]; split; intros H; congruence.
Qed.

Lemma outcome_runs (E : Env) cmds dir junk r :
  cmds <> [] -> StageOutcome E cmds dir junk r -> runs_of (events r) <> [].
Proof.
  intros Hne [Hj Hs Hr Hrm Hg|k a n store Hk Ht Hs Hr Hrm
             |Hj Hs Hr Hrm|store Hj Hd Hs Hr Hrm Hg]; rewrite Hr;
    try (destruct cmds; [congruence | discriminate]).
  intros H. apply app_eq_nil in H as [_ H]. discriminate.
Qed.

(** *** The two ceremonies *)

Section Ceremonies.

Variable E : Env.
Variable c : Config.
Variable w : World.

Lemma phase1_cases :
  (runs_of (events (phase1_stage E c w)) = []
   /\ removals (events (phase1_stage E c w)) = [])
  \/ StageOutcome E (removelast (phase1_commands E c w)
                     ++ [phase1_final_verify c])
       (resolve (cwd w) (POWERS_DIR c)) (phase1_intermediates c)
       (phase1_stage E c w).
Proof.
  destruct (is_file w (PTAU_FILE c)) eqn:H.
  - left. rewrite (phase1_skips E c w H). split; reflexivity.
  - right. exact (phase1_outcome E c w H).
Qed.

Lemma groth16_cases :
  (runs_of (events (groth16_stage E c w)) = []
   /\ removals (events (groth16_stage E c w)) = [])
  \/ StageOutcome E (removelast (phase2_commands E c w)
                     ++ [phase2_export c])
       (resolve (cwd w) (KEYS_DIR c)) (phase2_intermediates c)
       (groth16_stage E c w).
Proof.
  destruct (is_file w (VK_JSON c)) eqn:H.
  - left. rewrite (groth16_skips E c w H). split; reflexivity.
  - right. exact (groth16_outcome E c w H).
Qed.

Lemma phase1_final_verify_fresh :
  ~ In (phase1_final_verify c) (removelast (phase1_commands E c w)).
Proof.
  cbn [phase1_commands removelast In]. unfold phase1_final_verify.
  intros H.
  repeat (destruct H as [H|H]; [try discriminate H|]); [|exact H].
  injection H as H. apply append_inv_head in H. discriminate H.
Qed.

Lemma phase2_export_fresh :
  ~ In (phase2_export c) (removelast (phase2_commands E c w)).
Proof.
  cbn [phase2_commands removelast In]. unfold phase2_export.
  intros H.
  repeat (destruct H as [H|H]; [try discriminate H|]); exact H.
Qed.

Lemma phase2_final_verify_early :
  In (phase2_final_verify c) (removelast (phase2_commands E c w)).
Proof.
  cbn [phase2_commands removelast In]. unfold phase2_final_verify.
  do 8 right. now left.
Qed.

End Ceremonies.

(* ================================================================== *)
(** ** Idempotency gates *)

Lemma in_run_dirs (evs : list Event) (d : string) (argv : list string)
      (st : nat) :
  In (Run d argv st) evs -> In d (run_dirs evs).
Proof.
  intros H. unfold run_dirs. apply in_flat_map.
  exists (Run d argv st). split; [exact H | now left].
Qed.

Lemma in_runs_of (evs : list Event) (argv : list string) (st : nat) :
  In (argv, st) (runs_of evs) -> exists d, In (Run d argv st) evs.
Proof.
  unfold runs_of. intros H. apply in_flat_map in H as (e & He & Hin).
  destruct e as [| d a s |]; try contradiction.
  destruct Hin as [Hin|[]]. injection Hin as -> ->. now exists d.
Qed.

Ltac sh_dirs :=
  cbn [events status world prepend app run_dirs flat_map];
  repeat constructor.

Ltac sh_run_dir :=
  rewrite bind_run; cbv beta zeta; cbn [cwd fs dirstack draws];
  match goal with
  | |- context [fst (tool ?E ?d ?a ?s)] =>
      destruct (fst (tool E d a s)) as [|?]; [ | solve [sh_dirs] ]
  end.

(** Every tool of the ceremony is started in the powers-of-tau directory,
    into which line 127 has gone. *)
Lemma phase1_run_dirs (E : Env) (c : Config) (w : World) :
  Forall (eq (resolve (cwd w) (POWERS_DIR c)))
         (run_dirs (events (phase1_stage E c w))).
Proof.
  unfold phase1_stage. rewrite bind_test_f.
  destruct (is_file w (PTAU_FILE c)); cbn [negb]; [constructor|].
  do 2 sh_step. sh_run_dir.
  do 2 sh_step. sh_run_dir.
  do 2 sh_step. sh_run_dir.
  sh_step. sh_run_dir.
  sh_step. sh_run_dir.
  sh_run_dir.
  sh_step. sh_run_dir.
  sh_step. sh_run_dir.
  sh_step. sh_run_dir.
  sh_step. sh_run_dir.
  sh_step. rewrite bind_rm_f. cbn [cwd fs dirstack draws].
  destruct (existsb starts_with_dash _); [sh_dirs|].
  destruct (existsb _ _); [sh_dirs|].
  unfold popd, swept. sh_dirs.
Qed.

(** The phase-1 stage does not look at the circuit. *)
Lemma phase1_by_exponent (E : Env) (c c' : Config) :
  ROOT_DIR c' = ROOT_DIR c ->
  POWER_OF_TAU c' = POWER_OF_TAU c ->
  forall w, phase1_stage E c' w = phase1_stage E c w.
Proof.
  intros Hr Hp w.
  unfold phase1_stage, phase1_reuse_notice, phase1_intermediates, PTAU_FILE,
    POWERS_DIR, pot.
  rewrite Hr, Hp. reflexivity.
Qed.

(** The command of line 155, which writes the final parameters. *)
Definition phase1_prepare (c : Config) : list string :=
  ["snarkjs"; "powersoftau"; "prepare"; "phase2";
   pot c "_beacon.ptau"; pot c "_final.ptau"; "-v"].

(** C6.  The phase-1 artifact is <powersDir>/pot<N>_final.ptau: the
    invocation directory and the exponent make it, the circuit has no part
    in it, and two circuits with the same exponent have one and the same
    phase-1 stage.  The file is the one the ceremony writes: every tool of
    the stage runs in the powers-of-tau directory, and the output that
    [prepare phase2] is given on line 155, looked up from there, is this
    path.  When the file is there, the stage of any circuit with that
    exponent prints the reuse notice, runs nothing and leaves the world as
    it is. *)
Theorem phase1_artifact_shared (E : Env) (c c' : Config) (w : World) :
  ROOT_DIR c' = ROOT_DIR c ->
  POWER_OF_TAU c' = POWER_OF_TAU c ->
  PTAU_FILE c' = PTAU_FILE c
  /\ (forall w0, phase1_stage E c' w0 = phase1_stage E c w0)
  /\ (is_file w (PTAU_FILE c) = true ->
      phase1_stage E c' w = mkResult [phase1_reuse_notice c'] (Done tt) w
      /\ runs_of (events (phase1_stage E c' w)) = []
      /\ removals (events (phase1_stage E c' w)) = [])
  /\ Forall (eq (resolve (cwd w) (POWERS_DIR c)))
            (run_dirs (events (phase1_stage E c' w)))
  /\ (is_file w (PTAU_FILE c) = false -> tools_succeed E ->
      In (Run (resolve (cwd w) (POWERS_DIR c)) (phase1_prepare c) 0)
         (events (phase1_stage E c' w)))
  /\ step_of (phase1_prepare c)
     = Some (mkStep [pot c "_beacon.ptau"] (Some (pot c "_final.ptau")))
  /\ (is_absolute (ROOT_DIR c) = true ->
      resolve (resolve (cwd w) (POWERS_DIR c)) (pot c "_final.ptau")
      = PTAU_FILE c).
Proof.
  intros Hr Hp.
  assert (Hsame : PTAU_FILE c' = PTAU_FILE c)
    by (unfold PTAU_FILE, POWERS_DIR; now rewrite Hr, Hp).
  rewrite (phase1_by_exponent E c c' Hr Hp w).
  split; [exact Hsame|]. split; [now apply phase1_by_exponent|].
  split; [|split; [apply phase1_run_dirs|split; [|split; [reflexivity|]]]].
  - intros Hf. rewrite (phase1_skips E c w Hf).
    unfold phase1_reuse_notice. rewrite Hsame, Hp. repeat split.
  - intros Hf Hok.
    destruct (@outcome_succeeds E _ _ _ _ Hok (phase1_outcome E c w Hf))
      as (Hruns & _).
    assert (Hin : In (phase1_prepare c, 0)
                     (runs_of (events (phase1_stage E c w)))).
    { rewrite Hruns. apply in_ok_runs. split; [reflexivity|].
      cbn [phase1_commands In]. do 8 right. left. reflexivity. }
    apply in_runs_of in Hin as [d Hin].
    pose proof (phase1_run_dirs E c w) as Hd.
    rewrite Forall_forall in Hd.
    rewrite (Hd d (in_run_dirs _ _ _ _ Hin)). exact Hin.
  - intros Ha. unfold resolve at 2. unfold POWERS_DIR at 1.
    destruct (ROOT_DIR c) as [|x r]; [discriminate|].
    cbn [is_absolute] in Ha. cbn [append is_absolute]. rewrite Ha.
    unfold PTAU_FILE, POWERS_DIR, pot, resolve. reflexivity.
Qed.

Lemma phase1_artifact_shared_witness :
  let c := pinacle in
  let c' := mkConfig "circuits/Other.circom" "12" "/w" in
  let w := world0 "/w" ["/w/powersOfTau/pot12_final.ptau"] in
  (ROOT_DIR c' = ROOT_DIR c /\ POWER_OF_TAU c' = POWER_OF_TAU c)
  /\ PTAU_FILE c' = PTAU_FILE c
  /\ (forall w0, phase1_stage env_ok c' w0 = phase1_stage env_ok c w0)
  /\ (is_file w (PTAU_FILE c) = true ->
      phase1_stage env_ok c' w
      = mkResult [phase1_reuse_notice c'] (Done tt) w
      /\ runs_of (events (phase1_stage env_ok c' w)) = []
      /\ removals (events (phase1_stage env_ok c' w)) = [])
  /\ Forall (eq (resolve (cwd w) (POWERS_DIR c)))
            (run_dirs (events (phase1_stage env_ok c' w)))
  /\ (is_file w (PTAU_FILE c) = false -> tools_succeed env_ok ->
      In (Run (resolve (cwd w) (POWERS_DIR c)) (phase1_prepare c) 0)
         (events (phase1_stage env_ok c' w)))
  /\ step_of (phase1_prepare c)
     = Some (mkStep [pot c "_beacon.ptau"] (Some (pot c "_final.ptau")))
  /\ (is_absolute (ROOT_DIR c) = true ->
      resolve (resolve (cwd w) (POWERS_DIR c)) (pot c "_final.ptau")
      = PTAU_FILE c).
Proof.
  split; [split; reflexivity|].
  apply (@phase1_artifact_shared env_ok pinacle
           (mkConfig "circuits/Other.circom" "12" "/w")
           (world0 "/w" ["/w/powersOfTau/pot12_final.ptau"])); reflexivity.
Defined.

(** One circuit's run leaves what the next circuit's run reuses: after a
    whole run for Pinacle.circom with tools that write their outputs, a run
    for Other.circom with the same exponent runs no powers-of-tau
    command and prints the reuse notice. *)
Example phase1_reused_by_other_circuit :
  let w := world0 "/w" ["/w/circuits/Pinacle.circom"; "/w/circuits/Other.circom"] in
  let first := main (env_writing [])
                 ["--circom"; "circuits/Pinacle.circom"; "--power"; "12"] w in
  let w' := mkWorld (fs (world first)) "/w" [] (draws (world first)) in
  let second := main (env_writing [])
                  ["--circom"; "circuits/Other.circom"; "--power"; "12"] w' in
  status first = Done tt
  /\ is_file w' "/w/powersOfTau/pot12_final.ptau" = true
  /\ In (phase1_reuse_notice (mkConfig "circuits/Other.circom" "12" "/w"))
        (events second)
  /\ existsb (fun r => match fst r with
                       | _ :: "powersoftau" :: _ => true
                       | _ => false
                       end) (runs_of (events second)) = false
  /\ length (runs_of (events second)) = 13.
Proof.
  cbv zeta. split; [vm_compute; reflexivity|].
  split; [vm_compute; reflexivity|].
  split; [vm_compute; tauto|].
  split; vm_compute; reflexivity.
Qed.

(** C2 fails as stated: with <name>_final.zkey in the store and no
    verification_key.json the stage runs its ten tools, and with
    verification_key.json in the store and no <name>_final.zkey it is
    skipped. *)
Lemma groth16_gate_is_not_final_zkey :
  let w := world0 "/w" ["/w/circuits/build/Pinacle/keys/Pinacle_final.zkey"] in
  let w' := world0 "/w" ["/w/circuits/build/Pinacle/keys/verification_key.json"] in
  (is_file w (FINAL_ZKEY pinacle) = true
   /\ length (runs_of (events (groth16_stage env_ok pinacle w))) = 10)
  /\ (is_file w' (FINAL_ZKEY pinacle) = false
      /\ groth16_stage env_ok pinacle w'
         = mkResult [phase2_reuse_notice pinacle] (Done tt) w').
Proof. cbv zeta. repeat split; vm_compute; reflexivity. Qed.

(** The names that phase 1 removes are names for [rm]; those of phase 2
    are when the circuit name does not begin with a dash. *)
Lemma phase1_names_plain (c : Config) :
  existsb starts_with_dash (phase1_intermediates c) = false.
Proof. reflexivity. Qed.

Lemma phase2_names_dash (c : Config) :
  existsb starts_with_dash (phase2_intermediates c)
  = starts_with_dash (CIRCOM_NAME c).
Proof.
  unfold phase2_intermediates, named.
  destruct (CIRCOM_NAME c) as [|a n]; [reflexivity|].
  cbn [existsb starts_with_dash append].
  destruct (Ascii.eqb a dash); reflexivity.
Qed.

(** C2, as the script has it.  The stage is skipped exactly when
    <buildDir>/keys/verification_key.json is in the store: then it prints
    the reuse notice, runs no tool and leaves the world as it is; when the
    file is absent the stage begins with the Groth16 setup, and runs all of
    its tools when none fails.  The removal that follows the tools can
    still end the script with status 1: it does, with nothing removed, for
    a circuit name that begins with a dash. *)
Theorem groth16_skipped_iff_verification_key (E : Env) (c : Config) (w : World) :
  (runs_of (events (groth16_stage E c w)) = []
   <-> is_file w (VK_JSON c) = true)
  /\ (is_file w (VK_JSON c) = true ->
      groth16_stage E c w = mkResult [phase2_reuse_notice c] (Done tt) w)
  /\ (is_file w (VK_JSON c) = false ->
      exists k, 0 < k
                /\ map fst (runs_of (events (groth16_stage E c w)))
                   = firstn k (phase2_commands E c w))
  /\ (is_file w (VK_JSON c) = false -> tools_succeed E ->
      runs_of (events (groth16_stage E c w))
      = ok_runs (phase2_commands E c w)
      /\ (status (groth16_stage E c w) = Done tt
          \/ status (groth16_stage E c w) = Exit 1)
      /\ (starts_with_dash (CIRCOM_NAME c) = true ->
          status (groth16_stage E c w) = Exit 1
          /\ removals (events (groth16_stage E c w)) = [])).
Proof.
  assert (Hrun : is_file w (VK_JSON c) = false ->
                 runs_of (events (groth16_stage E c w)) <> []).
  { intros H. apply (@outcome_runs E (phase2_commands E c w)
                       (resolve (cwd w) (KEYS_DIR c)) (phase2_intermediates c)).
    - discriminate.
    - now apply groth16_outcome. }
  split; [|split; [apply groth16_skips | split]].
  - destruct (is_file w (VK_JSON c)) eqn:H.
    + rewrite (groth16_skips E c w H). split; reflexivity.
    + split; [|discriminate]. intros Hr. now apply Hrun in Hr.
  - intros H.
    destruct (@outcome_prefix E (removelast (phase2_commands E c w))
                (phase2_export c) _ _ _
                (or_intror (groth16_outcome E c w H))) as [k Hk].
    exists k. split; [|exact Hk].
    destruct k; [|lia]. exfalso. apply (Hrun H).
    destruct (runs_of (events (groth16_stage E c w))); [reflexivity|].
    discriminate Hk.
  - intros H Hok.
    destruct (@outcome_succeeds E _ _ _ _ Hok (groth16_outcome E c w H))
      as (Hr & Hs & Hd & Hj).
    rewrite phase2_names_dash in Hj.
    split; [exact Hr|]. split; [exact Hs|]. intros Hdash.
    apply Hj in Hdash. split; [|exact Hdash].
    destruct Hs as [Hs|Hs]; [|exact Hs].
    rewrite (Hd Hs) in Hdash. discriminate.
Qed.

Lemma groth16_skipped_iff_verification_key_witness :
  let w := world0 "/w" ["/w/circuits/build/Pinacle/keys/verification_key.json"] in
  let w0 := world0 "/w" [] in
  let r0 := groth16_stage env_ok pinacle w0 in
  (is_file w (VK_JSON pinacle) = true
   /\ groth16_stage env_ok pinacle w
      = mkResult [phase2_reuse_notice pinacle] (Done tt) w)
  /\ (is_file w0 (VK_JSON pinacle) = false
      /\ runs_of (events r0) = ok_runs (phase2_commands env_ok pinacle w0)
      /\ (status r0 = Done tt \/ status r0 = Exit 1)
      /\ (starts_with_dash (CIRCOM_NAME pinacle) = true ->
          status r0 = Exit 1 /\ removals (events r0) = [])).
Proof.
  split; (split; [reflexivity|]).
  - apply (groth16_skipped_iff_verification_key env_ok pinacle
             (world0 "/w" ["/w/circuits/build/Pinacle/keys/verification_key.json"])).
    reflexivity.
  - apply (groth16_skipped_iff_verification_key env_ok pinacle
             (world0 "/w" [])); [reflexivity|].
    intros d argv store. reflexivity.
Defined.

(** The circuit file ./-x.circom passes the validation and its name is -x:
    every tool of phase 2 runs, [rm] refuses the names that begin with a
    dash, and the script ends with status 1 with the intermediate files in
    place. *)
Example groth16_dash_name :
  let c := mkConfig "./-x.circom" "12" "/w" in
  let w := world0 "/w" ["/w/./-x.circom"] in
  let r := groth16_stage (env_writing []) c w in
  circom_accepted w "./-x.circom" = true
  /\ CIRCOM_NAME c = "-x"
  /\ runs_of (events r) = ok_runs (phase2_commands (env_writing []) c w)
  /\ status r = Exit 1
  /\ removals (events r) = []
  /\ forallb (is_file (world r)) (phase2_intermediates c) = true.
Proof. cbv zeta. repeat split; vm_compute; reflexivity. Qed.

(* ================================================================== *)
(** ** Cleanup *)

Section Tails.

Lemma ends_with_append (t p s : string) :
  ends_with t s = true -> ends_with t (p ++ s) = true.
Proof.
  rewrite !ends_with_iff. intros [pre ->]. exists (p ++ pre).
  now rewrite append_assoc.
Qed.

Lemma ends_with_resolve (t d x : string) :
  ends_with t x = true -> ends_with t (resolve d x) = true.
Proof.
  intros H. unfold resolve. destruct (is_absolute x); [exact H|].
  now do 2 apply ends_with_append.
Qed.

(** Two paths that end differently are different. *)
Lemma distinct_tails (t1 t2 a b : string) :
  String.length t1 = String.length t2 -> t1 <> t2 ->
  ends_with t1 a = true -> ends_with t2 b = true -> a <> b.
Proof.
  intros Hl Hne Ha Hb Heq.
  apply ends_with_iff in Ha as [pa ->]. apply ends_with_iff in Hb as [pb ->].
  apply Hne. now apply (append_inv_tail_length _ _ _ _ Heq).
Qed.

End Tails.

(** A path is shown to end in a given literal. *)
Ltac tail_of :=
  repeat first [ reflexivity
               | apply ends_with_resolve
               | apply ends_with_append ].

Ltac differ t1 t2 :=
  apply (@distinct_tails t1 t2); [reflexivity | discriminate | tail_of | tail_of].

Section Cleanup.

Variable E : Env.
Variable c : Config.

Lemma ptau_file_kept (d : string) :
  ~ In (PTAU_FILE c) (map (resolve d) (phase1_intermediates c)).
Proof.
  unfold PTAU_FILE, phase1_intermediates, pot. cbn [map In].
  intros H.
  repeat (destruct H as [H|H]; [revert H|]); [..|exact H].
  - differ "0.ptau" "l.ptau".
  - differ "1.ptau" "l.ptau".
  - differ "2.ptau" "l.ptau".
  - differ "3" "u".
  - differ "3" "u".
  - differ "3.ptau" "l.ptau".
  - differ "n.ptau" "l.ptau".
Qed.

Lemma final_zkey_kept (d : string) :
  ~ In (FINAL_ZKEY c) (map (resolve d) (phase2_intermediates c)).
Proof.
  unfold FINAL_ZKEY, phase2_intermediates, named. cbn [map In].
  intros H.
  repeat (destruct H as [H|H]; [revert H|]); [..|exact H].
  - differ "0.zkey" "l.zkey".
  - differ "1.zkey" "l.zkey".
  - differ "2.zkey" "l.zkey".
  - differ "3" "y".
  - differ "3" "y".
  - differ "3.zkey" "l.zkey".
Qed.

Lemma vk_json_kept (d : string) :
  ~ In (VK_JSON c) (map (resolve d) (phase2_intermediates c)).
Proof.
  unfold VK_JSON, phase2_intermediates, named. cbn [map In].
  intros H.
  repeat (destruct H as [H|H]; [revert H|]); [..|exact H].
  - differ "y" "n".
  - differ "y" "n".
  - differ "y" "n".
  - differ "3" "n".
  - differ "3" "n".
  - differ "y" "n".
Qed.

(** C3, as the script has it, for an exponent made of digits, which is
    what the validation lets through (the names of phase 1 are not quoted
    on line 161).  A stage removes nothing or, in one call of [rm -f] from
    the stage's directory, the names of its intermediate files; the files
    so named are then out of the store.  The names of phase 1 are removed
    exactly when the
    verification of pot<N>_final.ptau has succeeded; those of phase 2
    exactly when the verification of <name>_final.zkey and, after it, the
    export of the verification key have succeeded and the circuit name
    does not begin with a dash.  A stage in which a tool fails, a
    verification among them, removes nothing.  What is removed is never
    the final ptau, the final zkey or the verification key. *)
Theorem cleanup_after_verification (w1 w2 : World) :
  is_number (POWER_OF_TAU c) = true ->
  let r1 := phase1_stage E c w1 in
  let r2 := groth16_stage E c w2 in
  let d1 := resolve (cwd w1) (POWERS_DIR c) in
  let d2 := resolve (cwd w2) (KEYS_DIR c) in
  (removals (events r1) = []
   \/ removals (events r1) = [(d1, phase1_intermediates c)])
  /\ (removals (events r2) = []
      \/ removals (events r2) = [(d2, phase2_intermediates c)])
  /\ (removals (events r1) = [(d1, phase1_intermediates c)]
      <-> In (phase1_final_verify c, 0) (runs_of (events r1)))
  /\ (removals (events r2) = [(d2, phase2_intermediates c)]
      <-> In (phase2_final_verify c, 0) (runs_of (events r2))
          /\ In (phase2_export c, 0) (runs_of (events r2))
          /\ starts_with_dash (CIRCOM_NAME c) = false)
  /\ (removals (events r1) = [(d1, phase1_intermediates c)] ->
      forall name, In name (phase1_intermediates c) ->
                   has_file (fs (world r1)) (resolve d1 name) = false)
  /\ (removals (events r2) = [(d2, phase2_intermediates c)] ->
      forall name, In name (phase2_intermediates c) ->
                   has_file (fs (world r2)) (resolve d2 name) = false)
  /\ (forall argv n, In (argv, S n) (runs_of (events r1)) ->
                     removals (events r1) = [])
  /\ (forall argv n, In (argv, S n) (runs_of (events r2)) ->
                     removals (events r2) = [])
  /\ ~ In (PTAU_FILE c) (removed_paths (events r1))
  /\ ~ In (FINAL_ZKEY c) (removed_paths (events r2))
  /\ ~ In (VK_JSON c) (removed_paths (events r2)).
Proof.
  intros _ r1 r2 d1 d2.
  pose proof (phase1_cases E c w1) as H1.
  pose proof (groth16_cases E c w2) as H2.
  pose proof (@phase1_final_verify_fresh E c w1) as F1.
  pose proof (@phase2_export_fresh E c w2) as F2.
  fold r1 d1 in H1. fold r2 d2 in H2.
  pose proof (@outcome_cleanup_iff E _ _ _ _ _ H1 F1) as C1.
  pose proof (@outcome_cleanup_iff E _ _ _ _ _ H2 F2) as C2.
  rewrite phase1_names_plain in C1. rewrite phase2_names_dash in C2.
  split; [exact (@outcome_removals E _ _ _ _ _ H1)|].
  split; [exact (@outcome_removals E _ _ _ _ _ H2)|].
  split; [rewrite C1; tauto|].
  split.
  { rewrite C2. split; [|tauto].
    intros [H Hd]. split; [|split; [exact H | exact Hd]].
    apply (@outcome_earlier E _ _ _ _ _ H2 F2 _ H),
          phase2_final_verify_early. }
  split; [exact (@outcome_gone E _ _ _ _ _ H1)|].
  split; [exact (@outcome_gone E _ _ _ _ _ H2)|].
  split; [exact (@outcome_failure_keeps E _ _ _ _ _ H1)|].
  split; [exact (@outcome_failure_keeps E _ _ _ _ _ H2)|].
  split; [|split].
  - destruct (@outcome_removed E _ _ _ _ _ H1) as [-> | ->]; [tauto|].
    apply ptau_file_kept.
  - destruct (@outcome_removed E _ _ _ _ _ H2) as [-> | ->]; [tauto|].
    apply final_zkey_kept.
  - destruct (@outcome_removed E _ _ _ _ _ H2) as [-> | ->]; [tauto|].
    apply vk_json_kept.
Qed.

End Cleanup.

Lemma cleanup_after_verification_witness :
  let r1 := phase1_stage (env_writing []) pinacle (world0 "/w" []) in
  let r2 := groth16_stage (env_writing []) pinacle (world0 "/w" []) in
  is_number (POWER_OF_TAU pinacle) = true
  /\ (removals (events r1)
      = [("/w/powersOfTau", phase1_intermediates pinacle)]
      /\ In (phase1_final_verify pinacle, 0) (runs_of (events r1))
      /\ forall name, In name (phase1_intermediates pinacle) ->
            has_file (fs (world r1)) (resolve "/w/powersOfTau" name) = false)
  /\ (removals (events r2)
      = [("/w/circuits/build/Pinacle/keys", phase2_intermediates pinacle)]
      /\ forall name, In name (phase2_intermediates pinacle) ->
            has_file (fs (world r2))
                     (resolve "/w/circuits/build/Pinacle/keys" name) = false).
Proof.
  cbv zeta. split; [reflexivity|].
  destruct (@cleanup_after_verification (env_writing []) pinacle
              (world0 "/w" []) (world0 "/w" []) eq_refl)
    as (_ & _ & _ & _ & G1 & G2 & _).
  split; (split; [vm_compute; reflexivity|]).
  - split; [vm_compute; tauto|]. apply G1. vm_compute. reflexivity.
  - apply G2. vm_compute. reflexivity.
Defined.

(** C3 fails as stated: when the export of the verification key fails,
    <name>_final.zkey is in the store and its verification has succeeded,
    and the intermediate files of phase 2 are still there. *)
Lemma cleanup_skipped_after_verified_zkey :
  let r := groth16_stage (env_writing (phase2_export pinacle)) pinacle
             (world0 "/w" []) in
  is_file (world r) (FINAL_ZKEY pinacle) = true
  /\ In (phase2_final_verify pinacle, 0) (runs_of (events r))
  /\ removals (events r) = []
  /\ forallb (is_file (world r)) (phase2_intermediates pinacle) = true
  /\ status r = Exit 1.
Proof.
  cbv zeta. split; [vm_compute; reflexivity|].
  split; [vm_compute; do 8 right; now left|].
  repeat split; vm_compute; reflexivity.
Qed.

(** A directory among the names: [rm -f] removes the files, leaves the
    directory and fails, and the script ends with status 1 after the
    removal. *)
Example rm_on_a_directory :
  let E := mkEnv (fun _ _ store =>
                    (0, mkFS (files store) ["/w/powersOfTau/challenge_0003"]))
                 (fun _ => sample_uuid) (fun _ => true) (fun _ => false) in
  let r := phase1_stage E pinacle
             (world0 "/w" ["/w/powersOfTau/pot12_0000.ptau"; "/w/keep"]) in
  status r = Exit 1
  /\ length (runs_of (events r)) = 10
  /\ removals (events r) = [("/w/powersOfTau", phase1_intermediates pinacle)]
  /\ files (fs (world r)) = ["/w/keep"]
  /\ dirs (fs (world r)) = ["/w/powersOfTau/challenge_0003"].
Proof. cbv zeta. repeat split; vm_compute; reflexivity. Qed.

(* ================================================================== *)
(** ** Contribution chains *)

Section Chains.

Variable E : Env.
Variable c : Config.

Lemma phase1_steps (w : World) :
  map step_of (phase1_commands E c w)
  = [ Some (mkStep [] (Some (pot c "_0000.ptau")));
      Some (mkStep [pot c "_0000.ptau"] (Some (pot c "_0001.ptau")));
      Some (mkStep [pot c "_0001.ptau"] (Some (pot c "_0002.ptau")));
      Some (mkStep [pot c "_0002.ptau"] (Some "challenge_0003"));
      Some (mkStep ["challenge_0003"] (Some "response_0003"));
      Some (mkStep [pot c "_0002.ptau"; "response_0003"]
                   (Some (pot c "_0003.ptau")));
      Some (mkStep [pot c "_0003.ptau"] None);
      Some (mkStep [pot c "_0003.ptau"] (Some (pot c "_beacon.ptau")));
      Some (mkStep [pot c "_beacon.ptau"] (Some (pot c "_final.ptau")));
      Some (mkStep [pot c "_final.ptau"] None) ].
Proof. reflexivity. Qed.

Lemma phase2_steps (w : World) :
  map step_of (phase2_commands E c w)
  = [ Some (mkStep ["../" ++ named c ".r1cs"; PTAU_FILE c]
                   (Some (named c "_0000.zkey")));
      Some (mkStep [named c "_0000.zkey"] (Some (named c "_0001.zkey")));
      Some (mkStep [named c "_0001.zkey"] (Some (named c "_0002.zkey")));
      Some (mkStep [named c "_0002.zkey"] (Some "challenge_phase2_0003"));
      Some (mkStep ["challenge_phase2_0003"] (Some "response_phase2_0003"));
      Some (mkStep [named c "_0002.zkey"; "response_phase2_0003"]
                   (Some (named c "_0003.zkey")));
      Some (mkStep ["../" ++ named c ".r1cs"; PTAU_FILE c;
                    named c "_0003.zkey"] None);
      Some (mkStep [named c "_0003.zkey"] (Some (named c "_final.zkey")));
      Some (mkStep ["../" ++ named c ".r1cs"; PTAU_FILE c;
                    named c "_final.zkey"] None);
      Some (mkStep [named c "_final.zkey"] (Some "verification_key.json")) ].
Proof. reflexivity. Qed.

Lemma phase1_linked (w : World) :
  linked None (map step_of (phase1_commands E c w)).
Proof.
  rewrite phase1_steps. cbn [linked inputs output In]. tauto.
Qed.

Lemma phase2_linked (w : World) :
  linked None (map step_of (phase2_commands E c w)).
Proof.
  rewrite phase2_steps. cbn [linked inputs output In]. tauto.
Qed.

(** C5.  In each ceremony the tools run in the order of the script, up
    to the first that fails, and all of them when none fails.  Each step
    reads the file the step before it wrote: 0000 goes into the first
    contribution, which writes 0001; 0001 into the second, which writes
    0002; the challenge is exported from 0002, the response is made from
    the challenge and imported onto 0002 to write 0003; 0003 is verified
    and then goes into the beacon. *)
Theorem contribution_chains (w1 w2 : World) :
  is_file w1 (PTAU_FILE c) = false ->
  is_file w2 (VK_JSON c) = false ->
  let run1 := map fst (runs_of (events (phase1_stage E c w1))) in
  let run2 := map fst (runs_of (events (groth16_stage E c w2))) in
  (exists k, run1 = firstn k (phase1_commands E c w1))
  /\ (exists k, run2 = firstn k (phase2_commands E c w2))
  /\ (tools_succeed E ->
      run1 = phase1_commands E c w1 /\ run2 = phase2_commands E c w2)
  /\ linked None (map step_of run1)
  /\ linked None (map step_of run2)
  /\ firstn 8 (map step_of (phase1_commands E c w1))
     = [ Some (mkStep [] (Some (pot c "_0000.ptau")));
         Some (mkStep [pot c "_0000.ptau"] (Some (pot c "_0001.ptau")));
         Some (mkStep [pot c "_0001.ptau"] (Some (pot c "_0002.ptau")));
         Some (mkStep [pot c "_0002.ptau"] (Some "challenge_0003"));
         Some (mkStep ["challenge_0003"] (Some "response_0003"));
         Some (mkStep [pot c "_0002.ptau"; "response_0003"]
                      (Some (pot c "_0003.ptau")));
         Some (mkStep [pot c "_0003.ptau"] None);
         Some (mkStep [pot c "_0003.ptau"] (Some (pot c "_beacon.ptau"))) ]
  /\ firstn 8 (map step_of (phase2_commands E c w2))
     = [ Some (mkStep ["../" ++ named c ".r1cs"; PTAU_FILE c]
                      (Some (named c "_0000.zkey")));
         Some (mkStep [named c "_0000.zkey"] (Some (named c "_0001.zkey")));
         Some (mkStep [named c "_0001.zkey"] (Some (named c "_0002.zkey")));
         Some (mkStep [named c "_0002.zkey"] (Some "challenge_phase2_0003"));
         Some (mkStep ["challenge_phase2_0003"]
                      (Some "response_phase2_0003"));
         Some (mkStep [named c "_0002.zkey"; "response_phase2_0003"]
                      (Some (named c "_0003.zkey")));
         Some (mkStep ["../" ++ named c ".r1cs"; PTAU_FILE c;
                       named c "_0003.zkey"] None);
         Some (mkStep [named c "_0003.zkey"]
                      (Some (named c "_final.zkey"))) ].
Proof.
  intros H1 H2 run1 run2.
  pose proof (phase1_outcome E c w1 H1) as O1.
  pose proof (groth16_outcome E c w2 H2) as O2.
  assert (P1 : exists k, run1 = firstn k (phase1_commands E c w1))
    by exact (@outcome_prefix E (removelast (phase1_commands E c w1))
                (phase1_final_verify c) _ _ _ (or_intror O1)).
  assert (P2 : exists k, run2 = firstn k (phase2_commands E c w2))
    by exact (@outcome_prefix E (removelast (phase2_commands E c w2))
                (phase2_export c) _ _ _ (or_intror O2)).
  split; [exact P1|]. split; [exact P2|]. split; [|split; [|split]].
  - intros Hok.
    destruct (@outcome_succeeds E _ _ _ _ Hok O1) as (R1 & _).
    destruct (@outcome_succeeds E _ _ _ _ Hok O2) as (R2 & _).
    unfold run1, run2. rewrite R1, R2, !map_fst_ok_runs. auto.
  - destruct P1 as [k ->]. rewrite <- firstn_map.
    apply linked_firstn, phase1_linked.
  - destruct P2 as [k ->]. rewrite <- firstn_map.
    apply linked_firstn, phase2_linked.
  - split; reflexivity.
Qed.

End Chains.

Lemma contribution_chains_witness :
  let w := world0 "/w" [] in
  let run1 := map fst (runs_of (events (phase1_stage env_ok pinacle w))) in
  let run2 := map fst (runs_of (events (groth16_stage env_ok pinacle w))) in
  (is_file w (PTAU_FILE pinacle) = false /\ is_file w (VK_JSON pinacle) = false)
  /\ (run1 = phase1_commands env_ok pinacle w
      /\ run2 = phase2_commands env_ok pinacle w)
  /\ linked None (map step_of run1)
  /\ linked None (map step_of run2).
Proof.
  cbv zeta. split; [split; reflexivity|].
  destruct (@contribution_chains env_ok pinacle (world0 "/w" [])
              (world0 "/w" []) eq_refl eq_refl)
    as (_ & _ & Hall & L1 & L2 & _).
  split; [|split; assumption].
  apply Hall. intros d argv store. reflexivity.
Defined.

(* ================================================================== *)
(** ** Fatal propagation *)

Lemma failfast_last {A} (r : Result A) pre d argv st post :
  failfast r ->
  events r = (pre ++ Run d argv st :: post)%list -> st <> 0 ->
  post = [] /\ status r = Exit st.
Proof.
  intros Hf He Hst.
  assert (Hloud : ~ Forall quiet (events r)).
  { rewrite He. intros H. apply Forall_app in H as [_ H].
    inversion H; subst. contradiction. }
  unfold failfast in Hf. destruct (status r) as [a|code]; [contradiction|].
  destruct Hf as [Hq|(pre' & d' & argv' & He' & Hc & Hq)]; [contradiction|].
  rewrite He in He'.
  destruct (exists_last (l := Run d argv st :: post)) as (body & e & Hb);
    [discriminate|].
  rewrite Hb, app_assoc in He'. apply app_inj_tail in He' as [Hpre He'].
  subst e. destruct body as [|x body].
  - simpl in Hb. injection Hb as -> -> -> ->. auto.
  - exfalso. simpl in Hb. injection Hb as <- Hpost.
    rewrite <- Hpre in Hq. apply Forall_app in Hq as [_ Hq].
    inversion Hq; subst. contradiction.
Qed.

(** C4, as the script has it.  When a tool that the script runs, circom
    or snarkjs, exits with a status that is not zero, this is the last
    thing that the run does: no event comes after it, and the script exits
    with that status.  Nothing marks an artifact as final or as partial: a
    stage whose gate file is in the store prints its notice and runs no
    tool, so no verification either, whatever run has left the file. *)
Theorem failed_tool_halts (E : Env) (args : list string) (w : World)
        (pre post : list Event) (d : string) (argv : list string) (st : nat) :
  events (main E args w) = (pre ++ Run d argv st :: post)%list ->
  st <> 0 ->
  post = []
  /\ status (main E args w) = Exit st
  /\ exit_status (main E args w) = st
  /\ exit_status (main E args w) <> 0
  /\ (forall c w', is_file w' (PTAU_FILE c) = true ->
                   phase1_stage E c w'
                   = mkResult [phase1_reuse_notice c] (Done tt) w')
  /\ (forall c w', is_file w' (R1CS_FILE c) = true ->
                   compile_stage E c w'
                   = mkResult [compile_reuse_notice c] (Done tt) w')
  /\ (forall c w', is_file w' (VK_JSON c) = true ->
                   groth16_stage E c w'
                   = mkResult [phase2_reuse_notice c] (Done tt) w').
Proof.
  intros He Hst.
  destruct (@failfast_last _ _ _ _ _ _ _ (failfast_main E args w) He Hst)
    as [Hp Hs].
  unfold exit_status. rewrite Hs.
  split; [exact Hp|]. split; [reflexivity|]. split; [reflexivity|].
  split; [exact Hst|].
  split; [exact (phase1_skips E)|].
  split; [exact (compile_skips E) | exact (groth16_skips E)].
Qed.

Lemma failed_tool_halts_witness :
  let bad := ["snarkjs"; "powersoftau"; "verify"; "pot12_final.ptau"] in
  let r := main (env_failing bad)
             ["--circom"; "circuits/Pinacle.circom"; "--power"; "12"]
             (world0 "/w" ["/w/circuits/Pinacle.circom"]) in
  (exists pre, events r = (pre ++ [Run "/w/powersOfTau" bad 1])%list)
  /\ status r = Exit 1
  /\ exit_status r = 1
  /\ removals (events r) = [].
Proof.
  cbv zeta.
  set (r := main _ _ _).
  assert (He : events r
               = (removelast (events r)
                  ++ Run "/w/powersOfTau"
                       ["snarkjs"; "powersoftau"; "verify"; "pot12_final.ptau"]
                       1 :: [])%list)
    by (vm_compute; reflexivity).
  destruct (@failed_tool_halts _ _ _ _ _ _ _ _ He (Nat.neq_succ_0 0))
    as (_ & Hs & Hx & _).
  split; [eexists; exact He|]. split; [exact Hs|]. split; [exact Hx|].
  vm_compute. reflexivity.
Defined.

(** C4 fails as stated: the final ptau is written on line 155 and verified
    on line 158.  When that verification fails the script ends with the
    file in the store, and the next run finds it, prints the reuse notice,
    verifies nothing in phase 1 and runs to its end on it. *)
Lemma unverified_ptau_reused :
  let args := ["--circom"; "circuits/Pinacle.circom"; "--power"; "12"] in
  let w := world0 "/w" ["/w/circuits/Pinacle.circom"] in
  let first := main (env_writing (phase1_final_verify pinacle)) args w in
  let w' := mkWorld (fs (world first)) "/w" [] (draws (world first)) in
  let second := main (env_writing []) args w' in
  last (runs_of (events first)) ([], 0) = (phase1_final_verify pinacle, 1)
  /\ status first = Exit 1
  /\ is_file w' (PTAU_FILE pinacle) = true
  /\ hd_error (skipn 4 (events second)) = Some (phase1_reuse_notice pinacle)
  /\ existsb (fun r => match fst r with
                       | _ :: "powersoftau" :: _ => true
                       | _ => false
                       end) (runs_of (events second)) = false
  /\ length (runs_of (events second)) = 13
  /\ status second = Done tt.
Proof. cbv zeta. repeat split; vm_compute; reflexivity. Qed.

(* ================================================================== *)
(** ** The entropy token, whatever uuidgen prints *)

Section TokenBounds.

Lemma head_c_length (n : nat) (s : string) : String.length (head_c n s) <= n.
Proof.
  revert s. induction n as [|n IH]; intros [|x s]; simpl; try lia.
  specialize (IH s). lia.
Qed.

Lemma strip_trailing_newlines_length (s : string) :
  String.length (strip_trailing_newlines s) <= String.length s.
Proof.
  induction s as [|x s IH]; simpl; [lia|].
  destruct (strip_trailing_newlines s); simpl in *.
  - destruct (Ascii.eqb x newline); simpl; lia.
  - lia.
Qed.

Lemma tr_d_clean (c : ascii) (s : string) : mem_char c (tr_d c s) = false.
Proof.
  induction s as [|x s IH]; simpl; [reflexivity|].
  destruct (Ascii.eqb x c) eqn:Hx; [exact IH|]. simpl. now rewrite Hx.
Qed.

Lemma head_c_mem (c : ascii) (n : nat) (s : string) :
  mem_char c s = false -> mem_char c (head_c n s) = false.
Proof.
  revert s. induction n as [|n IH]; intros [|x s]; simpl; try reflexivity.
  destruct (Ascii.eqb x c); [discriminate | apply IH].
Qed.

Lemma strip_trailing_newlines_mem (c : ascii) (s : string) :
  mem_char c s = false -> mem_char c (strip_trailing_newlines s) = false.
Proof.
  induction s as [|x s IH]; simpl; [reflexivity|].
  destruct (Ascii.eqb x c) eqn:Hx; [discriminate|]. intros H.
  specialize (IH H). destruct (strip_trailing_newlines s) eqn:Hs.
  - destruct (Ascii.eqb x newline); simpl; [reflexivity | now rewrite Hx].
  - simpl. rewrite Hx. exact IH.
Qed.

Lemma strip_trailing_newlines_end (s : string) :
  ends_with (String newline "") (strip_trailing_newlines s) = false.
Proof.
  induction s as [|x s IH]; simpl; [reflexivity|].
  destruct (strip_trailing_newlines s) as [|y t] eqn:Hs.
  - destruct (Ascii.eqb x newline) eqn:Hx; [reflexivity|].
    rewrite ends_with_eq. simpl. rewrite Hx. reflexivity.
  - rewrite ends_with_eq. rewrite IH.
    destruct (String.eqb_spec (String x (String y t)) (String newline ""));
      [discriminate | reflexivity].
Qed.

Lemma entropy_of_small (u : string) :
  String.length (entropy_of u) <= 40
  /\ mem_char dash (entropy_of u) = false
  /\ ends_with (String newline "") (entropy_of u) = false.
Proof.
  unfold entropy_of. split; [|split].
  - etransitivity; [apply strip_trailing_newlines_length | apply head_c_length].
  - apply strip_trailing_newlines_mem, head_c_mem, tr_d_clean.
  - apply strip_trailing_newlines_end.
Qed.

Lemma entropy_twice_small (u v : string) :
  String.length (entropy_twice u v) <= 80
  /\ mem_char dash (entropy_twice u v) = false
  /\ ends_with (String newline "") (entropy_twice u v) = false.
Proof.
  unfold entropy_twice, piped. split; [|split].
  - etransitivity; [apply strip_trailing_newlines_length|].
    rewrite length_append.
    pose proof (head_c_length 40 (tr_d dash u)).
    pose proof (head_c_length 40 (tr_d dash v)). lia.
  - apply strip_trailing_newlines_mem. rewrite mem_char_append.
    now rewrite !head_c_mem by apply tr_d_clean.
  - apply strip_trailing_newlines_end.
Qed.

(** X4.  Whatever uuidgen prints, the token that a contribution of lines
    133, 137, 207, 211 and 216 gets has at most 40 characters, no dash,
    and no newline at its end.  The contribution of line 142 gets such a
    token when its first pipeline succeeds; when that pipeline fails the
    second one runs as well, uuidgen is called a second time, and the
    token is what both have printed: at most 80 characters, still with no
    dash and no newline at its end. *)
Theorem entropy_of_bounds (E : Env) (w : World) :
  (status (entropy E w) = Done (token E w 0)
   /\ draws (world (entropy E w)) = 1 + draws w
   /\ String.length (token E w 0) <= 40
   /\ mem_char dash (token E w 0) = false
   /\ ends_with (String newline "") (token E w 0) = false)
  /\ (status (entropy_or E w) = Done (token_or E w 0)
      /\ String.length (token_or E w 0) <= 80
      /\ mem_char dash (token_or E w 0) = false
      /\ ends_with (String newline "") (token_or E w 0) = false)
  /\ (pipe_fails E (draws w) = false ->
      token_or E w 0 = token E w 0
      /\ draws (world (entropy_or E w)) = 1 + draws w)
  /\ (pipe_fails E (draws w) = true ->
      token_or E w 0
      = entropy_twice (uuidgen E (draws w)) (uuidgen E (1 + draws w))
      /\ draws (world (entropy_or E w)) = 2 + draws w).
Proof.
  unfold token_or, token, entropy_or, entropy. cbn [plus status world draws].
  split; [|split; [|split]].
  - split; [reflexivity|]. split; [reflexivity|]. apply entropy_of_small.
  - destruct (pipe_fails E (draws w)); (split; [reflexivity|]);
      [apply entropy_twice_small|].
    destruct (entropy_of_small (uuidgen E (draws w))) as (Hl & Hd & Hn).
    split; [lia | auto].
  - intros ->. split; reflexivity.
  - intros ->. split; reflexivity.
Qed.

(** A uuidgen that fails after it has printed its line: the token of line
    142 is what two calls have printed, two runs of 32 digits with the
    newline of the first between them. *)
Example entropy_or_twice :
  let E := mkEnv tool_ok (fun _ => sample_uuid) (fun _ => true)
                 (fun _ => true) in
  let w := world0 "/w" [] in
  status (entropy_or E w)
  = Done ("123e4567e89b42d3a456426614174000"
          ++ String newline "123e4567e89b42d3a456426614174000")
  /\ draws (world (entropy_or E w)) = 2.
Proof. cbv zeta. split; reflexivity. Qed.

End TokenBounds.

(* ================================================================== *)
(** ** The argument loop *)

Section Arguments.

Lemma parse_args_render (ps : list (Flag * string)) :
  forall circom power rest,
    parse_args (render ps ++ rest) circom power
    = parse_args rest (last_value FCircom ps circom) (last_value FPower ps power).
Proof.
  induction ps as [|[[|] v] ps IH]; intros circom power rest;
    [reflexivity | |]; simpl; apply IH.
Qed.

(** X2.  Options that each have a value are read from left to right and the
    last value of an option is the one that counts; an option that ends
    the arguments without a value leaves its variable empty, whatever was
    given before. *)
Theorem parse_args_last_wins (ps : list (Flag * string)) (circom power : string) :
  parse_args (render ps) circom power
  = inr (last_value FCircom ps circom, last_value FPower ps power)
  /\ parse_args (render ps ++ ["--circom"]) circom power
     = inr ("", last_value FPower ps power)
  /\ parse_args (render ps ++ ["--power"]) circom power
     = inr (last_value FCircom ps circom, "").
Proof.
  split; [|split].
  - rewrite <- (app_nil_r (render ps)). apply parse_args_render.
  - rewrite parse_args_render. reflexivity.
  - rewrite parse_args_render. reflexivity.
Qed.

Lemma verbatim_append (a b : string) :
  verbatim (a ++ b) = verbatim a && verbatim b.
Proof.
  unfold verbatim. rewrite mem_char_append. apply negb_orb.
Qed.

(** X3.  An argument that stands where an option is read and is neither
    --circom nor --power ends the script: [echo -e] is called once, with
    Unknown option: and the argument, the status is 1, the world is as it
    was, whatever the other arguments are.  The text is printed as it is,
    as one line, exactly when the argument holds no backslash. *)
Theorem unknown_option_ends (E : Env) (w : World) (ps : list (Flag * string))
        (bad : string) (rest : list string) :
  bad <> "--circom" -> bad <> "--power" ->
  parse_args (render ps ++ bad :: rest) "" "" = inl bad
  /\ main E (render ps ++ bad :: rest) w
     = mkResult [Echo Red ("Unknown option: " ++ bad)] (Exit 1) w
  /\ verbatim ("Unknown option: " ++ bad) = verbatim bad.
Proof.
  intros Hc Hp.
  assert (Hparse : parse_args (render ps ++ bad :: rest) "" "" = inl bad).
  { rewrite parse_args_render. simpl.
    apply String.eqb_neq in Hc, Hp. now rewrite Hc, Hp. }
  split; [exact Hparse|]. split; [|apply verbatim_append].
  unfold main. rewrite Hparse.
  destruct (render ps ++ bad :: rest)%list eqn:Ha; [|reflexivity].
  apply app_eq_nil in Ha as [_ Ha]. discriminate.
Qed.

End Arguments.

Lemma unknown_option_ends_witness :
  parse_args (render [(FPower, "12")] ++ "-v" :: ["--circom"; "a.circom"]) "" ""
  = inl "-v"
  /\ main env_ok (render [(FPower, "12")] ++ "-v" :: ["--circom"; "a.circom"])
          (world0 "/w" ["/w/a.circom"])
     = mkResult [Echo Red ("Unknown option: " ++ "-v")] (Exit 1)
                (world0 "/w" ["/w/a.circom"])
  /\ verbatim ("Unknown option: " ++ "-v") = verbatim "-v".
Proof.
  apply (@unknown_option_ends env_ok (world0 "/w" ["/w/a.circom"])
           [(FPower, "12")] "-v" ["--circom"; "a.circom"]); discriminate.
Defined.

(* ================================================================== *)
(** ** Validation comes before everything *)

(** X1.  Either the arguments pass every check of lines 31-104 and the script
    is the pipeline on them, or the script ends with status 1 having run
    no tool, removed nothing and left the world as it was. *)
Theorem validation_guards_pipeline (E : Env) (args : list string) (w : World) :
  (exists file power,
      parse_args args "" "" = inr (file, power)
      /\ circom_accepted w file = true
      /\ is_number power = true
      /\ on_path E "circom" = true
      /\ on_path E "snarkjs" = true
      /\ main E args w = pipeline E file power w)
  \/ (status (main E args w) = Exit 1
      /\ world (main E args w) = w
      /\ runs_of (events (main E args w)) = []
      /\ removals (events (main E args w)) = []).
Proof.
  unfold main, circom_accepted. destruct args as [|a l].
  - right. repeat split.
  - destruct (parse_args (a :: l) "" "") as [opt|[file power]].
    + right. repeat split.
    + destruct (String.eqb file "") eqn:Hf; [right; repeat split|].
      rewrite bind_test_f.
      destruct (is_file w file) eqn:Hi; [|right; repeat split].
      cbn [negb andb].
      destruct (ends_with ".circom" file) eqn:He; [|right; repeat split].
      cbn [negb].
      destruct (String.eqb power "") eqn:Hp; [right; repeat split|].
      destruct (is_number power) eqn:Hn; [|right; repeat split]. cbn [negb].
      destruct (on_path E "circom"); [|right; repeat split]. cbn [negb].
      destruct (on_path E "snarkjs"); [|right; repeat split]. cbn [negb].
      left. exists file, power. rewrite Hf, Hi, He, Hn. repeat split.
Qed.

(* ================================================================== *)
(** ** derefAddresses, further *)

Section DerefMore.

Variable Address : Type.

Lemma deref_is_values (ptrs : list (option Address)) :
  Deploy.derefAddresses ptrs = Deploy.non_nil_values ptrs.
Proof. unfold Deploy.derefAddresses. apply (deref_loop ptrs []). Qed.

Lemma non_nil_values_app (a b : list (option Address)) :
  Deploy.non_nil_values (a ++ b)
  = (Deploy.non_nil_values a ++ Deploy.non_nil_values b)%list.
Proof.
  induction a as [|[x|] a IH]; simpl; [reflexivity | | exact IH].
  now rewrite IH.
Qed.

(** X12.  Dereferencing goes through concatenation, and gives back a list of
    values from the pointers to them. *)
Theorem derefAddresses_app_and_pointers
        (a b : list (option Address)) (values : list Address) :
  Deploy.derefAddresses (a ++ b)
  = (Deploy.derefAddresses a ++ Deploy.derefAddresses b)%list
  /\ Deploy.derefAddresses (map Some values) = values.
Proof.
  rewrite !deref_is_values. split; [apply non_nil_values_app|].
  induction values as [|v values IH]; simpl; [reflexivity | now rewrite IH].
Qed.

(** X13.  An address is in the result exactly when a pointer to it is in the
    slice; the result is empty exactly when every pointer is nil. *)
Theorem derefAddresses_members (ptrs : list (option Address)) :
  (forall a, In a (Deploy.derefAddresses ptrs) <-> In (Some a) ptrs)
  /\ (Deploy.derefAddresses ptrs = [] <-> Forall (fun p => p = None) ptrs).
Proof.
  rewrite deref_is_values. split.
  - intros a. induction ptrs as [|[x|] ptrs IH]; simpl.
    + tauto.
    + rewrite IH. split; intros [H|H]; auto; left; congruence.
    + rewrite IH. split; [auto|]. intros [H|H]; [discriminate | exact H].
  - induction ptrs as [|[x|] ptrs IH]; simpl.
    + split; auto.
    + split; [discriminate|]. intros H. inversion H; discriminate.
    + rewrite IH. split; [auto|]. intros H. now inversion H.
Qed.

End DerefMore.

(* ================================================================== *)
(** ** Which runs share their artifacts *)

Section SharedPaths.

Lemma append_inv_tail (a b s : string) : a ++ s = b ++ s -> a = b.
Proof.
  intros H. now apply (append_inv_tail_length _ _ _ _ H).
Qed.

(** Two strings without a slash that are followed by a slash are the same
    when the whole is. *)
Lemma append_slash_inv (a b x y : string) :
  mem_char slash a = false -> mem_char slash b = false ->
  a ++ String slash x = b ++ String slash y -> a = b /\ x = y.
Proof.
  revert b. induction a as [|c a IH]; intros [|d b] Ha Hb H; simpl in *.
  - injection H as ->. auto.
  - injection H as <- _. rewrite Ascii.eqb_refl in Hb. discriminate.
  - injection H as -> _. rewrite Ascii.eqb_refl in Ha. discriminate.
  - injection H as -> H.
    destruct (Ascii.eqb d slash); [discriminate|].
    destruct (IH b Ha Hb H) as [-> ->]. auto.
Qed.

Lemma accepted_name_no_slash (w : World) (c : Config) :
  circom_accepted w (CIRCOM_FILE c) = true ->
  mem_char slash (CIRCOM_NAME c) = false.
Proof.
  intros H. destruct (accepted_ends_in_circom _ _ H) as [pre Hpre].
  unfold CIRCOM_NAME, CIRCOM_BASENAME. rewrite Hpre, basename_circom.
  apply strip_longest_dot_suffix_no_slash.
  rewrite mem_char_append, last_component_clean. reflexivity.
Qed.

Variable c c' : Config.
Hypothesis Hroot : ROOT_DIR c' = ROOT_DIR c.

(** X5.  From one invocation directory, two runs have the same final ptau
    exactly when the texts of their exponents are the same: 12 and 012 do
    not share it. *)
Theorem ptau_file_shared_iff :
  PTAU_FILE c' = PTAU_FILE c <-> POWER_OF_TAU c' = POWER_OF_TAU c.
Proof.
  unfold PTAU_FILE, POWERS_DIR. rewrite Hroot. split.
  - intros H. apply append_inv_head in H. simpl in H.
    injection H as H. now apply append_inv_tail in H.
  - now intros ->.
Qed.

(** X6.  From one invocation directory, two accepted circuit files for
    which line 107 derives a name (they do not begin with a dash) have the
    same constraint system, the same final zkey and the same verification
    key exactly when their circuit names are the same: the directory of
    the source and what follows the first dot of its base name make no
    difference. *)
Theorem build_paths_shared_iff (w w' : World) :
  circom_accepted w (CIRCOM_FILE c) = true ->
  circom_accepted w' (CIRCOM_FILE c') = true ->
  starts_with_dash (CIRCOM_FILE c) = false ->
  starts_with_dash (CIRCOM_FILE c') = false ->
  (R1CS_FILE c' = R1CS_FILE c <-> CIRCOM_NAME c' = CIRCOM_NAME c)
  /\ (FINAL_ZKEY c' = FINAL_ZKEY c <-> CIRCOM_NAME c' = CIRCOM_NAME c)
  /\ (VK_JSON c' = VK_JSON c <-> CIRCOM_NAME c' = CIRCOM_NAME c).
Proof.
  intros Ha Ha' _ _.
  pose proof (accepted_name_no_slash _ _ Ha) as Hs.
  pose proof (accepted_name_no_slash _ _ Ha') as Hs'.
  unfold R1CS_FILE, FINAL_ZKEY, VK_JSON, KEYS_DIR, BUILD_DIR.
  rewrite Hroot. split; [|split]; (split; [|now intros ->]); intros H.
  - rewrite !append_assoc in H. do 2 apply append_inv_head in H.
    now apply append_slash_inv in H.
  - rewrite !append_assoc in H. do 2 apply append_inv_head in H.
    now apply append_slash_inv in H.
  - rewrite !append_assoc in H. do 2 apply append_inv_head in H.
    now apply append_inv_tail in H.
Qed.

End SharedPaths.

Lemma ptau_file_shared_iff_witness :
  let c := mkConfig "circuits/Pinacle.circom" "12" "/w" in
  let c' := mkConfig "circuits/Pinacle.circom" "012" "/w" in
  ROOT_DIR c' = ROOT_DIR c
  /\ (PTAU_FILE c' = PTAU_FILE c <-> POWER_OF_TAU c' = POWER_OF_TAU c).
Proof.
  split; [reflexivity|].
  apply (@ptau_file_shared_iff
           (mkConfig "circuits/Pinacle.circom" "12" "/w")
           (mkConfig "circuits/Pinacle.circom" "012" "/w") eq_refl).
Defined.

Lemma build_paths_shared_iff_witness :
  let c := mkConfig "a/x.circom" "12" "/w" in
  let c' := mkConfig "b/x.v2.circom" "12" "/w" in
  let w := world0 "/w" ["/w/a/x.circom"; "/w/b/x.v2.circom"] in
  (circom_accepted w (CIRCOM_FILE c) = true
   /\ circom_accepted w (CIRCOM_FILE c') = true
   /\ starts_with_dash (CIRCOM_FILE c) = false
   /\ starts_with_dash (CIRCOM_FILE c') = false)
  /\ R1CS_FILE c' = R1CS_FILE c
  /\ FINAL_ZKEY c' = FINAL_ZKEY c
  /\ VK_JSON c' = VK_JSON c.
Proof.
  cbv zeta. split; [repeat split|].
  destruct (@build_paths_shared_iff
              (mkConfig "a/x.circom" "12" "/w")
              (mkConfig "b/x.v2.circom" "12" "/w") eq_refl
              (world0 "/w" ["/w/a/x.circom"; "/w/b/x.v2.circom"])
              (world0 "/w" ["/w/a/x.circom"; "/w/b/x.v2.circom"])
              eq_refl eq_refl eq_refl eq_refl) as (H1 & H2 & H3).
  split; [|split]; [apply H1 | apply H2 | apply H3]; reflexivity.
Defined.

(* ================================================================== *)
(** ** The compile stage, and the stages one after the other *)

Section SequencingFacts.

Variable E : Env.




Lemma status_bind {A B} (m : Sh A) (k : A -> Sh B) (w : World) :
  status (bind m k w)
  = match status (m w) with
    | Done a => status (k a (world (m w)))
    | Exit c => Exit c
    end.
Proof. unfold bind. now destruct (status (m w)). Qed.

Lemma world_bind {A B} (m : Sh A) (k : A -> Sh B) (w : World) :
  world (bind m k w)
  = match status (m w) with
    | Done a => world (k a (world (m w)))
    | Exit c => world (m w)
    end.
Proof. unfold bind. now destruct (status (m w)). Qed.






End SequencingFacts.

(** A tool is run in a stage of which only the completed runs matter: when
    it fails the stage has not completed. *)
Ltac sh_run_done :=
  rewrite bind_run; cbv beta zeta; cbn [cwd fs dirstack draws];
  match goal with
  | |- context [fst (tool ?E ?d ?a ?s)] =>
      destruct (fst (tool E d a s)) as [|?];
      [ | sh_eval; intros Hdone; discriminate Hdone ]
  end.

(** The removal that ends a stage which completes. *)
Ltac sh_rm_done :=
  rewrite bind_rm_f; cbn [cwd fs dirstack draws];
  match goal with
  | |- context [existsb starts_with_dash ?l] =>
      destruct (existsb starts_with_dash l)
  end;
  [ sh_eval; intros Hdone; discriminate Hdone | ];
  match goal with
  | |- context [existsb (is_dir ?s) ?m] => destruct (existsb (is_dir s) m)
  end;
  [ sh_eval; intros Hdone; discriminate Hdone | ];
  unfold popd, swept; sh_eval.

Section StageWorlds.

Variable E : Env.
Variable c : Config.
Variable w : World.

(** A ceremony that completes has called uuidgen three times, and once
    more in phase 1 when the first pipeline of line 142 has failed, and is
    back in the directory it was started in. *)
Lemma phase1_done_world :
  is_file w (PTAU_FILE c) = false ->
  status (phase1_stage E c w) = Done tt ->
  draws (world (phase1_stage E c w)) = phase1_draws E w + draws w
  /\ cwd (world (phase1_stage E c w)) = cwd w
  /\ dirstack (world (phase1_stage E c w)) = dirstack w
  /\ exists store,
       files (fs (world (phase1_stage E c w)))
       = filter (fun f => negb (existsb (String.eqb f)
                                  (map (resolve (resolve (cwd w) (POWERS_DIR c)))
                                       (phase1_intermediates c))))
                (files store).
Proof.
  intros H. unfold phase1_stage. rewrite bind_test_f, H. cbn [negb].
  do 2 sh_step. sh_run_done.
  do 2 sh_step. sh_run_done.
  do 2 sh_step. sh_run_done.
  sh_step. sh_run_done.
  sh_step. sh_run_done.
  sh_run_done.
  sh_step. sh_run_done.
  sh_step. sh_run_done.
  sh_step. sh_run_done.
  sh_step. sh_run_done.
  sh_step. sh_rm_done.
  intros _. split.
  { unfold phase1_draws. cbn [plus].
    destruct (pipe_fails E (S (S (draws w)))); reflexivity. }
  split; [reflexivity|]. split; [reflexivity|]. eexists. reflexivity.
Qed.

Lemma groth16_done_world :
  is_file w (VK_JSON c) = false ->
  status (groth16_stage E c w) = Done tt ->
  draws (world (groth16_stage E c w)) = 3 + draws w
  /\ cwd (world (groth16_stage E c w)) = cwd w
  /\ dirstack (world (groth16_stage E c w)) = dirstack w
  /\ exists store,
       files (fs (world (groth16_stage E c w)))
       = filter (fun f => negb (existsb (String.eqb f)
                                  (map (resolve (resolve (cwd w) (KEYS_DIR c)))
                                       (phase2_intermediates c))))
                (files store).
Proof.
  intros H. unfold groth16_stage. rewrite bind_test_f, H. cbn [negb].
  do 2 sh_step. sh_run_done.
  do 2 sh_step. sh_run_done.
  do 2 sh_step. sh_run_done.
  sh_step. sh_run_done.
  sh_step. sh_run_done.
  sh_run_done.
  sh_step. sh_run_done.
  sh_step. sh_run_done.
  sh_step. sh_run_done.
  sh_step. sh_run_done.
  sh_step. sh_rm_done.
  intros _. split; [reflexivity|]. split; [reflexivity|].
  split; [reflexivity|]. eexists. reflexivity.
Qed.

(** The compile stage when the constraint system is not there: its
    invocations are the first commands of [compile_commands], all of them
    when it completes; it removes nothing and draws no token. *)
Lemma compile_outcome :
  is_file w (R1CS_FILE c) = false ->
  let r := compile_stage E c w in
  removals (events r) = []
  /\ draws (world r) = draws w
  /\ runs_of (events r) <> []
  /\ (exists k, map fst (runs_of (events r)) = firstn k (compile_commands c))
  /\ (status r = Done tt ->
      runs_of (events r) = ok_runs (compile_commands c)
      /\ cwd (world r) = cwd w /\ dirstack (world r) = dirstack w)
  /\ (tools_succeed E -> status r = Done tt).
Proof.
  intros H. unfold compile_stage. rewrite bind_test_f, H. cbn [negb].
  do 2 sh_step. rewrite bind_run. cbv beta zeta. cbn [cwd fs dirstack draws].
  match goal with
  | |- context [fst (tool ?E' ?d ?a ?s)] =>
      destruct (fst (tool E' d a s)) as [|n1] eqn:H1
  end.
  2:{ sh_eval. split; [reflexivity|]. split; [reflexivity|].
      split; [discriminate|]. split; [now exists 1|].
      split; [intros Hd; discriminate Hd|].
      intros Hok. rewrite Hok in H1. discriminate. }
  sh_step. rewrite bind_run. cbv beta zeta. cbn [cwd fs dirstack draws].
  match goal with
  | |- context [fst (tool ?E' ?d ?a ?s)] =>
      destruct (fst (tool E' d a s)) as [|n2] eqn:H2
  end.
  2:{ sh_eval. split; [reflexivity|]. split; [reflexivity|].
      split; [discriminate|]. split; [now exists 2|].
      split; [intros Hd; discriminate Hd|].
      intros Hok. rewrite Hok in H2. discriminate. }
  sh_step. rewrite bind_run. cbv beta zeta. cbn [cwd fs dirstack draws].
  match goal with
  | |- context [fst (tool ?E' ?d ?a ?s)] =>
      destruct (fst (tool E' d a s)) as [|n3] eqn:H3
  end.
  2:{ sh_eval. split; [reflexivity|]. split; [reflexivity|].
      split; [discriminate|]. split; [now exists 3|].
      split; [intros Hd; discriminate Hd|].
      intros Hok. rewrite Hok in H3. discriminate. }
  unfold popd. sh_eval. split; [reflexivity|]. split; [reflexivity|].
  split; [discriminate|]. split; [now exists 3|].
  split; [intros _; repeat split | reflexivity].
Qed.

End StageWorlds.

Section PipelineFacts.

Variable E : Env.






Variable c : Config.


Lemma compile_summary (w : World) :
  (exists k, map fst (runs_of (events (compile_stage E c w)))
             = firstn k (compile_commands c))
  /\ draws (world (compile_stage E c w)) = draws w
  /\ removals (events (compile_stage E c w)) = []
  /\ (status (compile_stage E c w) = Done tt ->
      runs_of (events (compile_stage E c w)) = []
      \/ runs_of (events (compile_stage E c w))
         = ok_runs (compile_commands c)).
Proof.
  destruct (is_file w (R1CS_FILE c)) eqn:H.
  - rewrite (compile_skips E c w H). split; [now exists 0|].
    repeat split. intros _. now left.
  - destruct (compile_outcome E c w H) as (Hrm & Hdr & _ & Hk & Hd & _).
    split; [exact Hk|]. split; [exact Hdr|]. split; [exact Hrm|].
    intros Hs. right. now apply Hd.
Qed.




End PipelineFacts.

(** X7.  In the compile stage the constraint system decides: with it in the
    store the stage prints its notice and does nothing else, without it
    circom runs, then [r1cs info], then [r1cs print], up to the first that
    fails.  The stage removes nothing and draws no token. *)
Theorem compile_stage_gate (E : Env) (c : Config) (w : World) :
  let r := compile_stage E c w in
  (runs_of (events r) = [] <-> is_file w (R1CS_FILE c) = true)
  /\ (is_file w (R1CS_FILE c) = true ->
      r = mkResult [compile_reuse_notice c] (Done tt) w)
  /\ removals (events r) = []
  /\ draws (world r) = draws w
  /\ (exists k, map fst (runs_of (events r)) = firstn k (compile_commands c))
  /\ (is_file w (R1CS_FILE c) = false -> tools_succeed E ->
      status r = Done tt
      /\ runs_of (events r) = ok_runs (compile_commands c)).
Proof.
  intros r. subst r.
  destruct (compile_summary E c w) as (Hk & Hdr & Hrm & _).
  split; [|split; [apply compile_skips|]].
  - destruct (is_file w (R1CS_FILE c)) eqn:H.
    + rewrite (compile_skips E c w H). split; reflexivity.
    + destruct (compile_outcome E c w H) as (_ & _ & Hne & _).
      split; [contradiction | discriminate].
  - split; [exact Hrm|]. split; [exact Hdr|]. split; [exact Hk|].
    intros H Hok.
    destruct (compile_outcome E c w H) as (_ & _ & _ & _ & Hd & Hs).
    split; [now apply Hs|]. now apply Hd, Hs.
Qed.




(** X10.  A stage that completes is back in the directory it was started in,
    with the directory stack as it was.  A stage that was skipped and the
    compile stage have not called uuidgen; phase 2, when it ran, has
    called it three times; phase 1, when it ran, three times, or four when
    the first pipeline of line 142 has failed. *)
Theorem stages_return (E : Env) (c : Config) (w : World) :
  (status (phase1_stage E c w) = Done tt ->
   cwd (world (phase1_stage E c w)) = cwd w
   /\ dirstack (world (phase1_stage E c w)) = dirstack w
   /\ draws (world (phase1_stage E c w))
      = (if is_file w (PTAU_FILE c) then 0
         else if pipe_fails E (2 + draws w) then 4 else 3) + draws w)
  /\ (status (compile_stage E c w) = Done tt ->
      cwd (world (compile_stage E c w)) = cwd w
      /\ dirstack (world (compile_stage E c w)) = dirstack w
      /\ draws (world (compile_stage E c w)) = draws w)
  /\ (status (groth16_stage E c w) = Done tt ->
      cwd (world (groth16_stage E c w)) = cwd w
      /\ dirstack (world (groth16_stage E c w)) = dirstack w
      /\ draws (world (groth16_stage E c w))
         = (if is_file w (VK_JSON c) then 0 else 3) + draws w).
Proof.
  split; [|split].
  - destruct (is_file w (PTAU_FILE c)) eqn:H.
    + rewrite (phase1_skips E c w H). intros _. repeat split.
    + intros Hd. destruct (phase1_done_world E c w H Hd) as (? & ? & ? & _).
      auto.
  - destruct (is_file w (R1CS_FILE c)) eqn:H.
    + rewrite (compile_skips E c w H). intros _. repeat split.
    + intros Hd.
      destruct (compile_outcome E c w H) as (_ & Hdr & _ & _ & Hw & _).
      destruct (Hw Hd) as (_ & ? & ?). auto.
  - destruct (is_file w (VK_JSON c)) eqn:H.
    + rewrite (groth16_skips E c w H). intros _. repeat split.
    + intros Hd. destruct (groth16_done_world E c w H Hd) as (? & ? & ? & _).
      auto.
Qed.

(** X11.  After a ceremony that has run to its end, none of its intermediate
    files is in the store.  The names of phase 1 are not quoted on line
    161: they are the words of the command for an exponent made of digits,
    which is what the validation lets through. *)
Theorem no_intermediate_left (E : Env) (c : Config) (w : World) :
  (is_number (POWER_OF_TAU c) = true ->
   is_file w (PTAU_FILE c) = false ->
   status (phase1_stage E c w) = Done tt ->
   forall name, In name (phase1_intermediates c) ->
     has_file (fs (world (phase1_stage E c w)))
              (resolve (resolve (cwd w) (POWERS_DIR c)) name) = false)
  /\ (is_file w (VK_JSON c) = false ->
      status (groth16_stage E c w) = Done tt ->
      forall name, In name (phase2_intermediates c) ->
        has_file (fs (world (groth16_stage E c w)))
                 (resolve (resolve (cwd w) (KEYS_DIR c)) name) = false).
Proof.
  split; [intros _|]; intros H Hd name Hin.
  - destruct (phase1_done_world E c w H Hd) as (_ & _ & _ & store & Hf).
    unfold has_file. rewrite Hf. apply has_file_removed. now apply in_map.
  - destruct (groth16_done_world E c w H Hd) as (_ & _ & _ & store & Hf).
    unfold has_file. rewrite Hf. apply has_file_removed. now apply in_map.
Qed.

Lemma no_intermediate_left_witness :
  let w := world0 "/w" [] in
  let r := phase1_stage (env_writing []) pinacle w in
  (is_number (POWER_OF_TAU pinacle) = true
   /\ is_file w (PTAU_FILE pinacle) = false /\ status r = Done tt)
  /\ forall name, In name (phase1_intermediates pinacle) ->
       has_file (fs (world r))
                (resolve (resolve (cwd w) (POWERS_DIR pinacle)) name) = false.
Proof.
  split; [repeat split|].
  apply (no_intermediate_left (env_writing []) pinacle (world0 "/w" []));
    reflexivity.
Defined.

(* ================================================================== *)
(** ** deploy.go: what a run of main does *)

(** The next call of [main] whose result decides how the run goes on. *)
Ltac node_case :=
  cbn [Deployer.bind app fst snd option_map
       Deployer.load_config Deployer.delete_dir Deployer.create_dir
       Deployer.new_mimc_sponge Deployer.find_private_key
       Deployer.decrypt_keyfile Deployer.new_eth_client
       Deployer.new_transactor Deployer.deploy_mimc Deployer.deploy_verifier
       Deployer.deploy_zklogin Deployer.wait_mined Deployer.code_at
       Deployer.extract_addresses Deployer.with_receipts Deployer.num_cpu
       Deployer.go_version Deployer.goos Deployer.goarch Deployer.path_join
       Deployer.tx_hash Deployer.hex];
  match goal with
  | |- context [match Deployer.load_config ?n with _ => _ end] =>
      destruct (Deployer.load_config n) as [?cfg|] eqn:?Hcfg
  | |- context [if String.eqb (Deployer.LoggerMode ?c) ?m then _ else _] =>
      destruct (String.eqb (Deployer.LoggerMode c) m)
  | |- context [if negb (Deployer.DisableBanner ?c) then _ else _] =>
      destruct (Deployer.DisableBanner c)
  | |- context [match Deployer.delete_dir ?n ?d with _ => _ end] =>
      destruct (Deployer.delete_dir n d) eqn:?Hdel
  | |- context [if Deployer.create_dir ?n ?d then _ else _] =>
      destruct (Deployer.create_dir n d)
  | |- context [if Deployer.new_mimc_sponge ?n then _ else _] =>
      destruct (Deployer.new_mimc_sponge n)
  | |- context [match Deployer.find_private_key ?n ?k with _ => _ end] =>
      destruct (Deployer.find_private_key n k)
  | |- context [match Deployer.decrypt_keyfile ?n ?k ?p with _ => _ end] =>
      destruct (Deployer.decrypt_keyfile n k p)
  | |- context [match Deployer.new_eth_client ?n ?u with _ => _ end] =>
      destruct (Deployer.new_eth_client n u) as [[? ?]|]
  | |- context [if Deployer.new_transactor ?n ?k ?c then _ else _] =>
      destruct (Deployer.new_transactor n k c)
  | |- context [match Deployer.deploy_mimc ?n ?o with _ => _ end] =>
      destruct (Deployer.deploy_mimc n o) as [[? ?]|] eqn:?Hmimc
  | |- context [match Deployer.deploy_verifier ?n ?o with _ => _ end] =>
      destruct (Deployer.deploy_verifier n o) as [[? ?]|] eqn:?Hver
  | |- context [match Deployer.deploy_zklogin ?n ?o ?l ?a ?b ?m ?v ?f
                with _ => _ end] =>
      destruct (Deployer.deploy_zklogin n o l a b m v f) as [[? ?]|] eqn:?Hzk
  | |- context [match Deployer.wait_mined ?n ?t with _ => _ end] =>
      destruct (Deployer.wait_mined n t)
  | |- context [match Deployer.code_at ?n ?a with _ => _ end] =>
      destruct (Deployer.code_at n a)
  end.

Ltac node_cases :=
  unfold Deployer.main, Deployer.deployed, Deployer.check, Deployer.attempt,
    Deployer.when, Deployer.ok, Deployer.fatal, Deployer.emit, Deployer.ret;
  repeat node_case;
  cbn [Deployer.bind app fst snd option_map].

Section DeployerFacts.

Variables Address Tx Key Client : Type.
Variable node : Deployer.Node Address Tx Key Client.

Let evs := fst (Deployer.main node).
Let result := snd (Deployer.main node).

Let chain_calls cfg a1 a2 a3 : list (Deployer.Ev Address) :=
  [ Deployer.DeployMimc _ Deployer.trOpts;
    Deployer.AddContract "mimc" a1;
    Deployer.DeployVerifier _ Deployer.trOpts;
    Deployer.AddContract "verifier" a2;
    Deployer.DeployZklogin Deployer.trOpts 2%N [1%N; 1%N] [32%N; 32%N] a1 a2
      (Deploy.derefAddresses (Deployer.extract_addresses node));
    Deployer.AddContract "zklogin" a3;
    Deployer.SaveAddresses _
      (Deployer.path_join node (Deployer.AddressesDir cfg) "addresses.json") ].

(** Every way a run can go, at once. *)
Lemma main_outcome :
  (result = Some tt <-> existsb (@Deployer.is_fatal Address) evs = false)
  /\ (result = Some tt <-> existsb (@Deployer.is_save Address) evs = true)
  /\ (result = Some tt ->
      exists cfg a1 t1 a2 t2 a3 t3,
        Deployer.load_config node = Some cfg
        /\ Deployer.deploy_mimc node Deployer.trOpts = Some (a1, t1)
        /\ Deployer.deploy_verifier node Deployer.trOpts = Some (a2, t2)
        /\ Deployer.deploy_zklogin node Deployer.trOpts 2%N [1%N; 1%N]
             [32%N; 32%N] a1 a2
             (Deploy.derefAddresses (Deployer.extract_addresses node))
           = Some (a3, t3)
        /\ filter (@Deployer.on_chain Address) evs = chain_calls cfg a1 a2 a3)
  /\ forallb (fun e => negb (Deployer.is_fatal e)) (removelast evs) = true
  /\ (result = None ->
      Deployer.is_fatal (last evs (Deployer.CtxCancel _)) = true
      /\ existsb (@Deployer.is_deferred Address) evs = false)
  /\ (result = Some tt ->
      skipn (length evs - 2) evs
      = [Deployer.ClientClose _; Deployer.CtxCancel _])
  /\ (forall cfg, Deployer.load_config node = Some cfg ->
      (Deployer.delete_dir node (Deployer.AccountsDir cfg)
       = Deployer.DeleteFailed ->
       result = None /\ existsb (@Deployer.is_create Address) evs = false)
      /\ (Deployer.delete_dir node (Deployer.AccountsDir cfg)
          = Deployer.NotExist ->
          existsb (@Deployer.is_create Address) evs = true)).
Proof.
  subst evs result chain_calls.
  destruct (Deployer.main node) as [evs r] eqn:Hm. cbn [fst snd].
  revert Hm. unfold Deployer.derefAddresses. node_cases.
  all: intros Hm; injection Hm as <- <-.
  all: split; [split; [reflexivity || discriminate | reflexivity || discriminate]|].
  all: split; [split; [reflexivity || discriminate | reflexivity || discriminate]|].
  all: split;
    [ first [ intros Hn; discriminate Hn
            | intros _; do 7 eexists; repeat split; eassumption ] |].
  all: split; [reflexivity|].
  all: split;
    [ first [ intros Hn; discriminate Hn | intros _; split; reflexivity ] |].
  all: split; [first [ intros Hn; discriminate Hn | intros _; reflexivity ] |].
  all: intros cfg' Hc;
    first [ discriminate Hc
          | injection Hc as <-; split; intros Hd;
            first [ discriminate Hd
                  | rewrite Hd in *; discriminate
                  | split; reflexivity
                  | reflexivity ] ].
Qed.

(** X14.  The addresses are saved exactly when no call has failed.  Then the
    calls on the chain are, in this order: Mimc is deployed and recorded,
    the verifier is deployed and recorded, zkLogin is deployed, with two
    levels, the addresses that the two deployments returned and the
    foodbank addresses that are not nil, and recorded, and the addresses
    are saved. *)
Theorem main_saves_after_deployments :
  (result = Some tt <-> existsb (@Deployer.is_fatal Address) evs = false)
  /\ (result = Some tt <-> existsb (@Deployer.is_save Address) evs = true)
  /\ (result = Some tt ->
      exists cfg a1 t1 a2 t2 a3 t3,
        Deployer.load_config node = Some cfg
        /\ Deployer.deploy_mimc node Deployer.trOpts = Some (a1, t1)
        /\ Deployer.deploy_verifier node Deployer.trOpts = Some (a2, t2)
        /\ Deployer.deploy_zklogin node Deployer.trOpts 2%N [1%N; 1%N]
             [32%N; 32%N] a1 a2
             (Deploy.derefAddresses (Deployer.extract_addresses node))
           = Some (a3, t3)
        /\ filter (@Deployer.on_chain Address) evs
           = [ Deployer.DeployMimc _ Deployer.trOpts;
               Deployer.AddContract "mimc" a1;
               Deployer.DeployVerifier _ Deployer.trOpts;
               Deployer.AddContract "verifier" a2;
               Deployer.DeployZklogin Deployer.trOpts 2%N [1%N; 1%N]
                 [32%N; 32%N] a1 a2
                 (Deploy.derefAddresses (Deployer.extract_addresses node));
               Deployer.AddContract "zklogin" a3;
               Deployer.SaveAddresses _
                 (Deployer.path_join node (Deployer.AddressesDir cfg)
                    "addresses.json") ]).
Proof.
  destruct main_outcome as (H1 & H2 & H3 & _). auto.
Qed.

(** X15.  A call that fails is fatal: the [Fatal] line is the last event of the
    run and the only one of its kind, and the deferred calls (closing the
    client, cancelling the context) are not made.  A run without failure
    ends with them, the last deferred first. *)
Theorem main_fatal_is_last :
  forallb (fun e => negb (Deployer.is_fatal e)) (removelast evs) = true
  /\ (result = None ->
      Deployer.is_fatal (last evs (Deployer.CtxCancel _)) = true
      /\ existsb (@Deployer.is_deferred Address) evs = false)
  /\ (result = Some tt ->
      skipn (length evs - 2) evs
      = [Deployer.ClientClose _; Deployer.CtxCancel _]).
Proof.
  destruct main_outcome as (_ & _ & _ & H4 & H5 & H6 & _). auto.
Qed.

(** X16.  Deleting the accounts directory: that it does not exist is no error,
    the run goes on and creates it; any other error ends the run before
    the directory is created. *)
Theorem main_accounts_directory (cfg : Deployer.Cfg) :
  Deployer.load_config node = Some cfg ->
  (Deployer.delete_dir node (Deployer.AccountsDir cfg)
   = Deployer.DeleteFailed ->
   result = None /\ existsb (@Deployer.is_create Address) evs = false)
  /\ (Deployer.delete_dir node (Deployer.AccountsDir cfg)
      = Deployer.NotExist ->
      existsb (@Deployer.is_create Address) evs = true).
Proof.
  destruct main_outcome as (_ & _ & _ & _ & _ & _ & H7). apply H7.
Qed.

(** X17.  No receipt is looked into: with other receipts for the same
    transactions, a status 0 for a reverted deployment among them, the run
    goes the same way, makes the same calls on the chain and saves the
    same addresses. *)
Theorem main_ignores_receipts (f : Deployer.Receipt -> Deployer.Receipt) :
  snd (Deployer.main (Deployer.with_receipts f node)) = result
  /\ filter (@Deployer.on_chain Address)
            (fst (Deployer.main (Deployer.with_receipts f node)))
     = filter (@Deployer.on_chain Address) evs.
Proof.
  subst evs result.
  destruct (Deployer.main node) as [evs r] eqn:Hm.
  destruct (Deployer.main (Deployer.with_receipts f node)) as [evs' r'] eqn:Hm'.
  cbn [fst snd]. revert Hm Hm'. unfold Deployer.derefAddresses. node_cases.
  all: intros Hm Hm'; injection Hm as <- <-; injection Hm' as <- <-.
  all: split; reflexivity.
Qed.

End DeployerFacts.

Lemma main_accounts_directory_witness :
  Deployer.load_config Deployer.sample_node = Some Deployer.sample_cfg
  /\ (Deployer.delete_dir Deployer.sample_node "accounts" = Deployer.NotExist
      /\ existsb (@Deployer.is_create nat)
                 (fst (Deployer.main Deployer.sample_node)) = true).
Proof.
  split; [reflexivity|]. split; [reflexivity|].
  apply (@main_accounts_directory nat nat unit unit Deployer.sample_node
           Deployer.sample_cfg); reflexivity.
Defined.

(** On the sample node zkLogin's receipt has status 0, its code is empty,
    and the run ends well all the same, with the three addresses saved. *)
Example main_on_sample_node :
  snd (Deployer.main Deployer.sample_node) = Some tt
  /\ filter (@Deployer.on_chain nat) (fst (Deployer.main Deployer.sample_node))
     = [ Deployer.DeployMimc _ Deployer.trOpts;
         Deployer.AddContract "mimc" 1;
         Deployer.DeployVerifier _ Deployer.trOpts;
         Deployer.AddContract "verifier" 2;
         Deployer.DeployZklogin Deployer.trOpts 2%N [1%N; 1%N] [32%N; 32%N]
           1 2 [10; 11];
         Deployer.AddContract "zklogin" 3;
         Deployer.SaveAddresses _ "addresses/addresses.json" ].
Proof. split; reflexivity. Qed.
